(** * na_ontap_service_policy: reconciliation of an ONTAP service policy

    A shallow embedding of [plugins/modules/na_ontap_service_policy.py]:
    the class [NetAppOntapServicePolicy] with its constructor, input
    validation, lookup, the three mutators, the planner [get_actions] and
    [apply].  Python dictionaries built by the module (query, body, modify)
    are finite maps from strings to values; the object [self] is an explicit
    state threaded through a small state-and-exit monad; the REST client is
    an interface. *)

From stdpp Require Import base option list strings gmap fin_maps.

(** ** Data *)

(** Values stored in the dictionaries the module builds: strings and lists
    of strings. *)
Inductive value :=
  | VStr (s : string)
  | VList (l : list string).

#[global] Instance value_eq_dec : EqDecision value.
Proof. solve_decision. Defined.

(** [module.params] / [self.parameters].  The option keys of
    [argument_spec]; [None] stands for a key that is unset (its value is
    Python's [None], or the key is missing: [dict.get] does not tell them
    apart).  [name] is declared [required=True].  [p_host] holds the
    connection options contributed by [na_ontap_host_argument_spec].
    [p_nulls] lists the option keys the task gives with a null value: the
    framework's [required_if] and [required_one_of] count the keys given,
    whatever their value. *)
Record params := Params {
  p_state : option string;
  p_name : string;
  p_ipspace : option string;
  p_scope : option string;
  p_services : option (list string);
  p_vserver : option string;
  p_host : list (string * string);
  p_nulls : list string
}.

(** A record returned by the list endpoint, with the projected fields
    [name,uuid,ipspace,services,svm].  Of the objects [ipspace] and [svm]
    the record keeps the name, the part the filters [ipspace.name] and
    [svm.name] select on.  The module itself reads [uuid] alone; it hands
    the record as it is to the planner's helpers. *)
Record service_policy := ServicePolicy {
  sp_name : string;
  sp_uuid : string;
  sp_ipspace : option string;
  sp_services : list string;
  sp_svm : option string
}.

(** The calls the module issues through [self.rest_api]. *)
Inductive call :=
  | GET (api : string) (query : gmap string value)
  | POST (api : string) (body : gmap string value)
  | PATCH (api : string) (body : gmap string value)
  | DELETE (api : string).

(** The keyword arguments of [module.exit_json]. *)
Record report := Report {
  rep_changed : bool;
  rep_cd_action : option string;
  rep_modify : option (gmap string value);
  rep_scope : params
}.

(** The argument of a [%s] in an error message. *)
Inductive fmt_arg :=
  | FNone
  | FStr (s : string)
  | FOptStr (s : option string)
  | FList (l : list string)
  | FDict (d : gmap string value).

(** How a run ends: [exit_json], [fail_json] (message format and its
    argument), or an uncaught Python exception. *)
Inductive exit :=
  | ExitJson (r : report)
  | FailJson (fmt : string) (arg : fmt_arg)
  | Raise (exn : string).

(** ** Collaborators *)

(** The REST client [OntapRestAPI] over a remote of type [R].  [get] returns
    the records of the response and an error; the mutating calls return the
    new remote and an error.  [rest_minimum_version_error] is what
    [fail_if_not_rest_minimum_version] reports once the backend answered
    the request for its version. *)
Class OntapRestAPI (R : Type) := {
  rest_minimum_version_error : R → string → nat → nat → option string;
  rest_get : R → string → gmap string value → list service_policy * option string;
  rest_post : R → string → gmap string value → R * option string;
  rest_patch : R → string → gmap string value → R * option string;
  rest_delete : R → string → R * option string
}.

(** Modelled from the spec: the diff engine is a collaborator, not under
    src (§2, §4.3).  Its attribute comparison gives the keys of the current
    record whose desired value differs, with the desired value. *)
Class DiffEngine := {
  attribute_diff : service_policy → params → gmap string value
}.

(** ** The object [self] and the monad of its methods *)

Record self (R : Type) := Self {
  module_params : params;
  check_mode : bool;
  parameters : params;
  na_changed : bool;
  remote : R;
  calls : list call
}.
Arguments Self {R}.
Arguments module_params {R}.
Arguments check_mode {R}.
Arguments parameters {R}.
Arguments na_changed {R}.
Arguments remote {R}.
Arguments calls {R}.

(** A method either returns a value or ends the run; the object is kept in
    both cases. *)
Definition M (R A : Type) : Type := self R → (A + exit) * self R.

#[global] Instance M_ret {R} : MRet (M R) := λ A a s, (inl a, s).

#[global] Instance M_bind {R} : MBind (M R) :=
  λ A B k m s, match m s with
               | (inl a, s') => k a s'
               | (inr e, s') => (inr e, s')
               end.

Definition stop {R A} (e : exit) : M R A := λ s, (inr e, s).

Definition fail_json {R A} (fmt : string) (arg : fmt_arg) : M R A :=
  stop (FailJson fmt arg).

Definition exit_json {R A} (r : report) : M R A := stop (ExitJson r).

Definition gets {R A} (f : self R → A) : M R A := λ s, (inl (f s), s).

Definition set_parameters_field {R} (f : params → params) : M R unit :=
  λ s, (inl tt, Self (module_params s) (check_mode s) (f (parameters s))
                     (na_changed s) (remote s) (calls s)).

Definition set_changed {R} : M R unit :=
  λ s, (inl tt, Self (module_params s) (check_mode s) (parameters s)
                     true (remote s) (calls s)).

Definition when {R} (b : bool) (m : M R unit) : M R unit :=
  if b then m else mret tt.

(** The object after [self.rest_api] issued the call [c] and the remote
    became [r]. *)
Definition called {R} (c : call) (r : R) (s : self R) : self R :=
  Self (module_params s) (check_mode s) (parameters s) (na_changed s)
       r (calls s ++ [c]).

(** The REST calls, recorded in [calls]. *)
Definition api_get `{OntapRestAPI R} (api : string) (query : gmap string value)
  : M R (list service_policy * option string) :=
  λ s, (inl (rest_get (remote s) api query),
        called (GET api query) (remote s) s).

Definition api_post `{OntapRestAPI R} (api : string) (body : gmap string value)
  : M R (option string) :=
  λ s, let '(r, error) := rest_post (remote s) api body in
       (inl error, called (POST api body) r s).

Definition api_patch `{OntapRestAPI R} (api : string) (body : gmap string value)
  : M R (option string) :=
  λ s, let '(r, error) := rest_patch (remote s) api body in
       (inl error, called (PATCH api body) r s).

Definition api_delete `{OntapRestAPI R} (api : string) : M R (option string) :=
  λ s, let '(r, error) := rest_delete (remote s) api in
       (inl error, called (DELETE api) r s).

(** ** Python helpers *)

(** [sub in s] on two strings: [sub] occurs in [s]. *)
Fixpoint str_in (sub s : string) : bool :=
  String.prefix sub s ||
  match s with
  | EmptyString => false
  | String _ s' => str_in sub s'
  end.

(** The double-quote character inside a message. *)
Definition dquote : string := String (Ascii.ascii_of_nat 34) EmptyString.

(** [x in l] on a list of strings. *)
Definition list_in (x : string) (l : list string) : bool :=
  bool_decide (x ∈ l).

(** ** The constructor: argument checks of [AnsibleModule] *)

Definition state_choices : list string := ["present"; "absent"].

Definition scope_choices : list string := ["cluster"; "svm"].

Definition services_choices : list string :=
  ["cluster_core"; "intercluster_core"; "management_core";
   "management_autosupport"; "management_bgp"; "management_ems";
   "management_https"; "management_ssh"; "management_portmap"; "data_core";
   "data_nfs"; "data_cifs"; "data_flexcache"; "data_iscsi"; "data_s3_server";
   "no_service"].

(** A declared option read as a dictionary entry. *)
Definition param_get (p : params) (key : string) : option value :=
  if decide (key = "state") then VStr <$> p_state p
  else if decide (key = "name") then Some (VStr (p_name p))
  else if decide (key = "ipspace") then VStr <$> p_ipspace p
  else if decide (key = "scope") then VStr <$> p_scope p
  else if decide (key = "services") then VList <$> p_services p
  else if decide (key = "vserver") then VStr <$> p_vserver p
  else VStr <$> (list_to_map (p_host p) : gmap string string) !! key.

(** [choices=] of [state], [scope] and the elements of [services]. *)
Definition check_choices (p : params) : bool :=
  from_option (λ v, list_in v state_choices) true (p_state p) &&
  from_option (λ v, list_in v scope_choices) true (p_scope p) &&
  from_option (forallb (λ v, list_in v services_choices)) true (p_services p).

Definition required_if : list (string * option value * list string) :=
  [ ("scope", Some (VStr "cluster"), ["ipspace"]);
    ("scope", Some (VStr "svm"), ["vserver"]);
    ("vserver", None, ["ipspace"]) ].

Definition required_one_of : list (list string) :=
  [ ["ipspace"; "vserver"] ].

(** The task gives the key: with a value, or with a null. *)
Definition param_given (p : params) (key : string) : bool :=
  bool_decide (is_Some (param_get p key)) || list_in key (p_nulls p).

(** A [required_if] rule [(key, val, requirements)]: when the task gives
    [key] and its value is [val], the task gives every key of
    [requirements]. *)
Definition check_required_if (p : params) : bool :=
  forallb (λ '(key, val, requirements),
             negb (param_given p key && bool_decide (param_get p key = val)) ||
             forallb (param_given p) requirements)
          required_if.

(** A [required_one_of] rule: the task gives at least one of the keys. *)
Definition check_required_one_of (p : params) : bool :=
  forallb (existsb (param_given p)) required_one_of.

(** [default='present'] of [state]. *)
Definition with_defaults (args : params) : params :=
  Params (Some (default "present" (p_state args))) (p_name args)
         (p_ipspace args) (p_scope args) (p_services args) (p_vserver args)
         (p_host args) (p_nulls args).

(** [AnsibleModule(argument_spec, required_if, required_one_of)] on the
    object whose [module_params] hold the task's arguments: the declared
    choices, then [required_one_of], then [required_if], then the defaults.
    The messages stand for the framework's own. *)
Definition AnsibleModule {R} : M R unit :=
  args ← gets module_params;
  if negb (check_choices args) then
    fail_json "value of %s must be one of the declared choices" FNone
  else if negb (check_required_one_of args) then
    fail_json "one of the following is required: %s" (FList ["ipspace"; "vserver"])
  else if negb (check_required_if args) then
    fail_json "%s is required by the required_if rules" FNone
  else
    λ s, (inl tt, Self (with_defaults args) (check_mode s) (parameters s)
                       (na_changed s) (remote s) (calls s)).

(** Modelled from the spec: [NetAppModule.set_parameters] is not under src.
    The desired state is built once from the input parameters (§3); the
    result is a dictionary of its own holding the options that are set, so
    that normalisation never writes to [module.params]. *)
Definition set_parameters (ansible_params : params) : params := ansible_params.

(** Truth value of an [error] returned by the client or a helper. *)
Definition truthy_error (error : option string) : bool :=
  match error with
  | Some e => negb (bool_decide (e = EmptyString))
  | None => false
  end.

(** The request by which the version gate asks the backend for its
    version. *)
Definition version_request : call :=
  GET "cluster" {["fields" := VList ["version"]]}.

(** Modelled from the spec: [fail_if_not_rest_minimum_version] is not under
    src.  §6: the backend must be at the minimum version, and the run is
    refused before any other work when it is not.  The gate asks the
    backend for its version through the REST client, one GET on [cluster],
    and fails with the error of the comparison. *)
Definition fail_if_not_rest_minimum_version `{OntapRestAPI R}
    (module_name : string) (major minor : nat) : M R unit :=
  λ s, (match rest_minimum_version_error (remote s) module_name major minor with
        | Some msg => inr (FailJson "%s" (FStr msg))
        | None => inl tt
        end,
        called version_request (remote s) s).

Definition set_services (v : list string) (p : params) : params :=
  Params (p_state p) (p_name p) (p_ipspace p) (p_scope p) (Some v)
         (p_vserver p) (p_host p) (p_nulls p).

Definition set_scope (v : string) (p : params) : params :=
  Params (p_state p) (p_name p) (p_ipspace p) (Some v) (p_services p)
         (p_vserver p) (p_host p) (p_nulls p).

Definition validate_inputs {R} : M R unit :=
  services ← gets (λ s, p_services (parameters s));
  match services with
  | Some (x :: l) =>
      when (list_in "no_service" (x :: l))
        (when (bool_decide (1 < length (x :: l)))
           (fail_json "Error: no other service can be present when no_service is specified.  Got: %s"
                      (FList (x :: l)));;
         set_parameters_field (set_services []))
  | _ => mret tt
  end;;
  scope ← gets (λ s, p_scope (parameters s));
  vserver ← gets (λ s, p_vserver (parameters s));
  match scope with
  | None =>
      set_parameters_field
        (set_scope (if decide (vserver = None) then "cluster" else "svm"))
  | Some sc =>
      if bool_decide (sc = "cluster") && negb (bool_decide (vserver = None)) then
        fail_json ("Error: vserver cannot be set when " +:+ dquote +:+ "scope: cluster"
                   +:+ dquote +:+ " is specified.  Got: %s")
                  (FOptStr vserver)
      else if bool_decide (sc = "svm") && bool_decide (vserver = None) then
        fail_json ("Error: vserver cannot be None when " +:+ dquote +:+ "scope: svm"
                   +:+ dquote +:+ " is specified.") FNone
      else mret tt
  end.

(** What [validate_inputs] leaves as [services] when it returns. *)
Definition normalized_services (services : option (list string)) : option (list string) :=
  match services with
  | Some (x :: l) => if list_in "no_service" (x :: l) then Some [] else Some (x :: l)
  | _ => services
  end.

(** [__init__].  The object starts from the task's arguments; the helper
    [NetAppModule()] starts with [changed = False]. *)
Definition init `{OntapRestAPI R} : M R unit :=
  AnsibleModule;;
  ansible_params ← gets module_params;
  set_parameters_field (λ _, set_parameters ansible_params);;
  fail_if_not_rest_minimum_version "na_ontap_service_policy" 9 8;;
  validate_inputs.

Definition new_self {R} (args : params) (check : bool) (r : R) : self R :=
  Self args check args false r [].

(** ** Lookup *)

Definition api_service_policies : string := "network/ip/service-policies".

Definition get_query (p : params) : gmap string value :=
  let query : gmap string value :=
    <["fields" := VStr "name,uuid,ipspace,services,svm"]>
      {["name" := VStr (p_name p)]} in
  let query :=
    match p_vserver p with
    | None => <["scope" := VStr "cluster"]> query
    | Some vserver => <["svm.name" := VStr vserver]> query
    end in
  match p_ipspace p with
  | Some ipspace => <["ipspace.name" := VStr ipspace]> query
  | None => query
  end.

(** Modelled from the spec: [rrh.check_for_0_or_1_records] is not under
    src.  An error of the call is passed on; no record gives the absent
    marker; one record gives that record; two or more are an error (§4.2). *)
Definition check_for_0_or_1_records (api : string)
    (response : list service_policy) (error : option string)
  : option service_policy * option string :=
  if truthy_error error then (None, error)
  else match response with
       | [] => (None, None)
       | [record] => (Some record, None)
       | _ => (None, Some ("unexpected number of records for " +:+ api))
       end.

Definition get_service_policy `{OntapRestAPI R} : M R (option service_policy) :=
  let api := api_service_policies in
  p ← gets parameters;
  '(response, error) ← api_get api (get_query p);
  let '(record, error) := check_for_0_or_1_records api response error in
  if truthy_error error then
    fail_json "Error in get_service_policy: %s" (FOptStr error)
  else mret record.

(** ** Mutators *)

Definition create_body (p : params) : gmap string value :=
  let body : gmap string value := {["name" := VStr (p_name p)]} in
  let body :=
    match p_vserver p with
    | Some vserver => <["svm.name" := VStr vserver]> body
    | None => body
    end in
  foldl (λ body attr,
           match param_get p attr with
           | Some v => <[attr := v]> body
           | None => body
           end)
        body ["ipspace"; "scope"; "services"].

Definition create_service_policy `{OntapRestAPI R} : M R unit :=
  let api := api_service_policies in
  p ← gets parameters;
  error ← api_post api (create_body p);
  if truthy_error error then
    fail_json "Error in create_service_policy: %s" (FOptStr error)
  else mret tt.

(** [current['uuid']]: subscripting the absent marker raises. *)
Definition current_uuid {R} (current : option service_policy) : M R string :=
  match current with
  | Some record => mret (sp_uuid record)
  | None => stop (Raise "TypeError: 'NoneType' object is not subscriptable")
  end.

(** The loop of [modify_service_policy]: every key with [key in ('services')]
    is popped from the copy and put in the body.  [('services')] is the
    string ['services'], so [in] is the test on strings.  The value popped
    from the copy is the one [modify] holds for the key. *)
Definition modify_step (key : string) (v : value)
    (acc : gmap string value * gmap string value)
  : gmap string value * gmap string value :=
  let '(body, modify_copy) := acc in
  if str_in key "services"
  then (<[key := v]> body, delete key modify_copy)
  else (body, modify_copy).

Definition modify_split (modify : gmap string value)
  : gmap string value * gmap string value :=
  map_fold modify_step (∅, modify) modify.

Definition modify_service_policy `{OntapRestAPI R}
    (current : option service_policy) (modify : gmap string value) : M R unit :=
  uuid ← current_uuid current;
  let api := "network/ip/service-policies/" +:+ uuid in
  let '(body, modify_copy) := modify_split modify in
  when (negb (bool_decide (modify_copy = ∅)))
    (fail_json "Error: attributes not supported in modify: %s" (FDict modify_copy));;
  when (bool_decide (body = ∅))
    (fail_json "Error: nothing to change - modify called with: %s" (FDict modify));;
  error ← api_patch api body;
  if truthy_error error then
    fail_json "Error in modify_service_policy: %s" (FOptStr error)
  else mret tt.

Definition delete_service_policy `{OntapRestAPI R}
    (current : option service_policy) : M R unit :=
  uuid ← current_uuid current;
  let api := "network/ip/service-policies/" +:+ uuid in
  error ← api_delete api;
  if truthy_error error then
    fail_json "Error in delete_service_policy: %s" (FOptStr error)
  else mret tt.

(** ** Planner *)

(** Modelled from the spec: [NetAppModule.get_cd_action] is not under src.
    §4.3: current absent and desired present is a create, current present
    and desired absent is a delete, otherwise there is no create or delete;
    the helper's [changed] is set when the action is not null.  The desired
    existence is [state], [present] by default. *)
Definition get_cd_action {R} (current : option service_policy) (desired : params)
  : M R (option string) :=
  let desired_absent := bool_decide (p_state desired = Some "absent") in
  match current, desired_absent with
  | None, true => mret None
  | Some _, false => mret None
  | Some _, true => set_changed;; mret (Some "delete")
  | None, false => set_changed;; mret (Some "create")
  end.

(** Modelled from the spec: [NetAppModule.get_modified_attributes] is not
    under src.  §4.3: the attribute diff between the current record and the
    desired state, empty when there is no current record; the helper's
    [changed] is set when the diff is not empty. *)
Definition get_modified_attributes `{DiffEngine} {R}
    (current : option service_policy) (desired : params)
  : M R (gmap string value) :=
  match current with
  | None => mret ∅
  | Some record =>
      let modified := attribute_diff record desired in
      when (negb (bool_decide (modified = ∅))) set_changed;;
      mret modified
  end.

Definition get_actions `{OntapRestAPI R} `{DiffEngine}
  : M R (option string * option (gmap string value) * option service_policy) :=
  current ← get_service_policy;
  p ← gets parameters;
  cd_action ← get_cd_action current p;
  modify ← match cd_action with
           | None => modified ← get_modified_attributes current p;
                     mret (Some modified)
           | Some _ => mret None
           end;
  mret (cd_action, modify, current).

(** Truth value of [modify]: a dictionary that is not empty. *)
Definition truthy_modify (modify : option (gmap string value)) : bool :=
  match modify with
  | Some d => negb (bool_decide (d = ∅))
  | None => false
  end.

Definition apply `{OntapRestAPI R} `{DiffEngine} : M R unit :=
  '(cd_action, modify, current) ← get_actions;
  changed ← gets na_changed;
  check ← gets check_mode;
  when (changed && negb check)
    (if bool_decide (cd_action = Some "create") then create_service_policy
     else if bool_decide (cd_action = Some "delete") then delete_service_policy current
     else if truthy_modify modify then
       modify_service_policy current (default ∅ modify)
     else mret tt);;
  changed ← gets na_changed;
  module_params ← gets module_params;
  exit_json (Report changed cd_action modify module_params).

Definition main `{OntapRestAPI R} `{DiffEngine}
    (args : params) (check : bool) (r : R) : (unit + exit) * self R :=
  (init;; apply) (new_self args check r).

(** ** What a lookup finds on a remote *)

(** What a lookup for [desired] finds on the remote [r]. *)
Definition lookup_now `{OntapRestAPI R} (r : R) (desired : params)
  : option service_policy * option string :=
  let '(response, error) := rest_get r api_service_policies (get_query desired) in
  check_for_0_or_1_records api_service_policies response error.

(** The fields of a record: the projection the lookup asks for.  The keys
    of a computed diff are fields of the current record. *)
Definition record_fields : list string :=
  ["name"; "uuid"; "ipspace"; "services"; "svm"].

(** The remote already is as [desired] asks: the lookup finds no record
    when the policy is to be absent, and one record with nothing to modify
    when it is to be present. *)
Definition in_desired_state `{OntapRestAPI R} `{DiffEngine}
    (r : R) (desired : params) : bool :=
  match lookup_now r desired with
  | (Some record, error) =>
      negb (truthy_error error) &&
      negb (bool_decide (p_state desired = Some "absent")) &&
      bool_decide (attribute_diff record desired = ∅)
  | (None, error) =>
      negb (truthy_error error) &&
      bool_decide (p_state desired = Some "absent")
  end.

(** ** A reference remote

    Service policies kept in a list, and a diff engine that compares the
    services; used to run the module on concrete inputs. *)

Definition sim_matches (query : gmap string value) (record : service_policy) : bool :=
  bool_decide (query !! "name" = Some (VStr (sp_name record))) &&
  match query !! "svm.name" with
  | Some v => bool_decide (VStr <$> sp_svm record = Some v)
  | None => true
  end &&
  match query !! "scope" with
  | Some v => bool_decide (v = VStr (match sp_svm record with
                                     | Some _ => "svm"
                                     | None => "cluster"
                                     end))
  | None => true
  end &&
  match query !! "ipspace.name" with
  | Some v => bool_decide (VStr <$> sp_ipspace record = Some v)
  | None => true
  end.

Definition sim_get (store : list service_policy) (api : string)
    (query : gmap string value) : list service_policy * option string :=
  (filter (λ record, sim_matches query record = true) store, None).

Definition sim_post (store : list service_policy) (api : string)
    (body : gmap string value) : list service_policy * option string :=
  match body !! "name" with
  | Some (VStr n) =>
      (store ++
        [ServicePolicy n ("uuid-" +:+ n)
           (match body !! "ipspace" with Some (VStr i) => Some i | _ => None end)
           (match body !! "services" with Some (VList l) => l | _ => [] end)
           (match body !! "svm.name" with Some (VStr v) => Some v | _ => None end)],
       None)
  | _ => (store, Some "name is required")
  end.

Definition sim_path (record : service_policy) : string :=
  "network/ip/service-policies/" +:+ sp_uuid record.

Definition sim_patch (store : list service_policy) (api : string)
    (body : gmap string value) : list service_policy * option string :=
  ((λ record,
      if bool_decide (sim_path record = api) then
        match body !! "services" with
        | Some (VList l) =>
            ServicePolicy (sp_name record) (sp_uuid record) (sp_ipspace record)
                          l (sp_svm record)
        | _ => record
        end
      else record) <$> store,
   None).

Definition sim_delete (store : list service_policy) (api : string)
  : list service_policy * option string :=
  (filter (λ record, sim_path record ≠ api) store, None).

Definition sim_rest : OntapRestAPI (list service_policy) :=
  {| rest_minimum_version_error := λ _ _ _ _, None;
     rest_get := sim_get;
     rest_post := sim_post;
     rest_patch := sim_patch;
     rest_delete := sim_delete |}.

Definition sim_diff : DiffEngine :=
  {| attribute_diff := λ record desired,
       match p_services desired with
       | Some l =>
           if bool_decide (l = sp_services record) then ∅
           else {["services" := VList l]}
       | None => ∅
       end |}.

Definition sim_main (args : params) (check : bool) (store : list service_policy) :=
  @main _ sim_rest sim_diff args check store.

(** A backend that refuses every call. *)
Definition sim_rest_down : OntapRestAPI (list service_policy) :=
  {| rest_minimum_version_error := λ _ _ _ _, None;
     rest_get := λ _ _ _, ([], Some "connection refused");
     rest_post := λ store _ _, (store, Some "connection refused");
     rest_patch := λ store _ _, (store, Some "connection refused");
     rest_delete := λ store _, (store, Some "connection refused") |}.

(** ** A backend that applies the requests it is sent

    What the claims on two runs in a row assume of the remote: the list
    endpoint answers with the policies that match the filter, a POST adds
    the policy its body describes, a PATCH sets the services of the policy
    it addresses, a DELETE removes it, and none of them changes the
    answer of the version gate. *)

(** The policy a POST of [body] creates under the identifier [uuid]. *)
Definition created (uuid : string) (body : gmap string value)
  : option service_policy :=
  match body !! "name" with
  | Some (VStr n) =>
      Some (ServicePolicy n uuid
              (match body !! "ipspace" with Some (VStr i) => Some i | _ => None end)
              (match body !! "services" with Some (VList l) => l | _ => [] end)
              (match body !! "svm.name" with Some (VStr v) => Some v | _ => None end))
  | _ => None
  end.

(** What a PATCH of [body] to [api] makes of a policy. *)
Definition patched (api : string) (body : gmap string value)
    (record : service_policy) : service_policy :=
  if bool_decide (sim_path record = api) then
    match body !! "services" with
    | Some (VList l) =>
        ServicePolicy (sp_name record) (sp_uuid record) (sp_ipspace record)
                      l (sp_svm record)
    | _ => record
    end
  else record.

Class AppliesRequests (R : Type) `{OntapRestAPI R} := {
  policies : R → list service_policy;
  get_answers r query :
    rest_get r api_service_policies query =
      (filter (λ record, sim_matches query record = true) (policies r), None);
  post_applies r body r' error :
    rest_post r api_service_policies body = (r', error) →
    truthy_error error = false →
    (∃ uuid record, created uuid body = Some record ∧
                    policies r' = policies r ++ [record]) ∧
    ∀ name major minor,
      rest_minimum_version_error r' name major minor =
      rest_minimum_version_error r name major minor;
  patch_applies r api body r' error :
    rest_patch r api body = (r', error) →
    truthy_error error = false →
    policies r' = patched api body <$> policies r ∧
    ∀ name major minor,
      rest_minimum_version_error r' name major minor =
      rest_minimum_version_error r name major minor;
  delete_applies r api r' error :
    rest_delete r api = (r', error) →
    truthy_error error = false →
    policies r' = filter (λ record, sim_path record ≠ api) (policies r) ∧
    ∀ name major minor,
      rest_minimum_version_error r' name major minor =
      rest_minimum_version_error r name major minor
}.

(** Modelled from the spec: the diff of [get_modified_attributes], not
    under src, restricted to the mutable field.  [services] is the one
    attribute a modify may target (§4.4): the diff holds the desired
    services when they are set and differ from the record's (§8), and is
    empty otherwise.  The diff engine is asked to give this diff on the
    records the lookup for the desired state selects, which agree with it
    on the name, the svm and the ipspace. *)
Definition services_diff (record : service_policy) (desired : params)
  : gmap string value :=
  match p_services desired with
  | Some l =>
      if bool_decide (l = sp_services record) then ∅
      else {["services" := VList l]}
  | None => ∅
  end.

Class DiffsServices `{DiffEngine} := {
  diff_is_services record desired :
    sim_matches (get_query desired) record = true →
    attribute_diff record desired = services_diff record desired
}.

Definition sim_applies : @AppliesRequests (list service_policy) sim_rest.
Proof.
  refine {| policies := λ store, store |}.
  - done.
  - intros store body store' error Hpost Herror. simpl in Hpost.
    unfold sim_post in Hpost. split; [|done].
    destruct (body !! "name") as [[n|l]|] eqn:Hname; simplify_eq/=.
    eexists _, _. split; [|done]. unfold created. by rewrite Hname.
  - intros store api body store' error Hpatch _. simpl in Hpatch.
    unfold sim_patch in Hpatch. by simplify_eq.
  - intros store api store' error Hdelete _. simpl in Hdelete.
    unfold sim_delete in Hdelete. by simplify_eq.
Defined.

Definition sim_diffs : @DiffsServices sim_diff.
Proof. by split. Defined.

(** The scenarios of §8. *)
Definition svc1_present : params :=
  Params (Some "present") "svc1" None None (Some ["data_nfs"]) (Some "vs1") [] [].

Definition svc1_absent : params :=
  Params (Some "absent") "svc1" None None None (Some "vs1") [] [].

Definition svc1_no_service : params :=
  Params None "svc1" None None (Some ["no_service"]) (Some "vs1") [] [].


(** A task that names [no_service] beside another service. *)
Definition svc1_two_services : params :=
  Params None "svc1" None None (Some ["no_service"; "data_nfs"]) (Some "vs1")
         [] [].

Definition svc1_record : service_policy :=
  ServicePolicy "svc1" "u1" None ["data_nfs"] (Some "vs1").

(** * Properties *)

(** ** Lookup *)

Lemma get_query_lookup (p : params) :
  get_query p !! "name" = Some (VStr (p_name p)) ∧
  get_query p !! "fields" = Some (VStr "name,uuid,ipspace,services,svm") ∧
  get_query p !! "scope" =
    (if decide (p_vserver p = None) then Some (VStr "cluster") else None) ∧
  get_query p !! "svm.name" = VStr <$> p_vserver p ∧
  get_query p !! "ipspace.name" = VStr <$> p_ipspace p.
Proof.
  unfold get_query.
  destruct (p_vserver p) as [vserver|], (p_ipspace p) as [ipspace|];
    repeat split; by simplify_map_eq.
Qed.

Lemma get_query_other (p : params) (key : string) :
  key ∉ ["name"; "fields"; "scope"; "svm.name"; "ipspace.name"] →
  get_query p !! key = None.
Proof.
  intros Hkey. unfold get_query.
  destruct (p_vserver p) as [vserver|], (p_ipspace p) as [ipspace|];
    repeat (rewrite lookup_insert_ne; [|intros <-; apply Hkey; set_solver]);
    (rewrite lookup_singleton_ne; [done|intros <-; apply Hkey; set_solver]).
Qed.

Ltac method :=
  unfold mbind, M_bind, mret, M_ret, gets, when, fail_json, exit_json, stop,
    set_parameters_field, set_changed in *; simpl in *.

Ltac cases :=
  repeat first [progress method | case_match | progress simplify_eq/=].

Lemma get_service_policy_run `{OntapRestAPI R} (s : self R) :
  get_service_policy s =
    (match lookup_now (remote s) (parameters s) with
     | (record, error) =>
         if truthy_error error
         then inr (FailJson "Error in get_service_policy: %s" (FOptStr error))
         else inl record
     end,
     called (GET api_service_policies (get_query (parameters s))) (remote s) s).
Proof.
  unfold get_service_policy, lookup_now, api_get. method.
  destruct (rest_get _ _ _) as [response error].
  destruct (check_for_0_or_1_records _ _ _) as [record error'].
  by destruct (truthy_error error').
Qed.

Lemma validate_inputs_frame {R} (s s' : self R) o :
  validate_inputs s = (o, s') →
  module_params s' = module_params s ∧ check_mode s' = check_mode s ∧
  na_changed s' = na_changed s ∧ remote s' = remote s ∧ calls s' = calls s.
Proof.
  unfold validate_inputs. method. intros Hrun.
  cases; done.
Qed.

Lemma validate_inputs_ok {R} (s s' : self R) :
  validate_inputs s = (inl tt, s') →
  let p := parameters s in
  let p' := parameters s' in
  p_state p' = p_state p ∧ p_name p' = p_name p ∧ p_ipspace p' = p_ipspace p ∧
  p_vserver p' = p_vserver p ∧ p_host p' = p_host p ∧
  p_services p' = normalized_services (p_services p) ∧
  p_scope p' = Some (match p_scope p with
                     | Some sc => sc
                     | None => if decide (p_vserver p = None) then "cluster" else "svm"
                     end) ∧
  (p_scope p' = Some "cluster" → p_vserver p = None) ∧
  (p_scope p' = Some "svm" → is_Some (p_vserver p)).
Proof.
  unfold validate_inputs, normalized_services. method. intros Hrun.
  cases; repeat split; try done.
  all: intros; simplify_eq/=; repeat case_bool_decide; simplify_eq/=; try done.
  all: destruct (p_vserver _); by eauto.
Qed.

(** ** The constructor *)

#[local] Arguments check_choices : simpl never.
#[local] Arguments check_required_if : simpl never.
#[local] Arguments check_required_one_of : simpl never.
#[local] Arguments with_defaults : simpl never.

(** The object on which [validate_inputs] runs. *)
Lemma init_run `{OntapRestAPI R} (s : self R) :
  init s =
    let args := module_params s in
    let s1 := called version_request (remote s)
                (Self (with_defaults args) (check_mode s)
                      (set_parameters (with_defaults args))
                      (na_changed s) (remote s) (calls s)) in
    if negb (check_choices args) then
      (inr (FailJson "value of %s must be one of the declared choices" FNone), s)
    else if negb (check_required_one_of args) then
      (inr (FailJson "one of the following is required: %s"
                     (FList ["ipspace"; "vserver"])), s)
    else if negb (check_required_if args) then
      (inr (FailJson "%s is required by the required_if rules" FNone), s)
    else match rest_minimum_version_error (remote s)
                 "na_ontap_service_policy" 9 8 with
         | Some msg => (inr (FailJson "%s" (FStr msg)), s1)
         | None => validate_inputs s1
         end.
Proof.
  unfold init, AnsibleModule, fail_if_not_rest_minimum_version. method.
  destruct (check_choices _); simpl; [|done].
  destruct (check_required_one_of _); simpl; [|done].
  destruct (check_required_if _); simpl; [|done].
  destruct (rest_minimum_version_error _ _ _ _); simpl; [done|].
  by destruct (validate_inputs _) as [[[]|e] s'].
Qed.

Lemma init_frame `{OntapRestAPI R} (s s' : self R) o :
  init s = (o, s') →
  check_mode s' = check_mode s ∧ na_changed s' = na_changed s ∧
  remote s' = remote s ∧
  (calls s' = calls s ∨ calls s' = calls s ++ [version_request]).
Proof.
  rewrite init_run. simpl. intros Hrun.
  repeat case_match; simplify_eq/=; try (by auto).
  apply validate_inputs_frame in Hrun. simpl in Hrun.
  destruct Hrun as (_ & -> & -> & -> & ->). by auto.
Qed.

(** The framework's refusals come before the version gate's request; past
    them the request is the one call of the constructor. *)
Lemma init_calls `{OntapRestAPI R} (s s' : self R) o :
  init s = (o, s') →
  let args := module_params s in
  if check_choices args && check_required_one_of args && check_required_if args
  then calls s' = calls s ++ [version_request]
  else calls s' = calls s ∧ ∃ fmt arg, o = inr (FailJson fmt arg).
Proof.
  rewrite init_run. simpl. intros Hrun.
  destruct (check_choices _); simpl in *; [|by simplify_eq; eauto].
  destruct (check_required_one_of _); simpl in *; [|by simplify_eq; eauto].
  destruct (check_required_if _); simpl in *; [|by simplify_eq; eauto].
  destruct (rest_minimum_version_error _ _ _ _); [by simplify_eq|].
  apply validate_inputs_frame in Hrun. simpl in Hrun.
  by destruct Hrun as (_ & _ & _ & _ & ->).
Qed.

Lemma init_ok `{OntapRestAPI R} (s s' : self R) :
  init s = (inl tt, s') →
  let args := module_params s in
  check_choices args = true ∧ check_required_one_of args = true ∧
  check_required_if args = true ∧
  module_params s' = with_defaults args ∧
  validate_inputs
    (called version_request (remote s)
       (Self (with_defaults args) (check_mode s)
             (set_parameters (with_defaults args))
             (na_changed s) (remote s) (calls s))) = (inl tt, s').
Proof.
  rewrite init_run. simpl. intros Hrun.
  repeat case_match; simplify_eq/=.
  pose proof (validate_inputs_frame _ _ _ Hrun) as (Hm & _); simpl in Hm.
  repeat match goal with
         | Hb : negb _ = false |- _ => apply negb_false_iff in Hb
         end.
  by repeat split.
Qed.

(** The constructor ends a run only through [fail_json]. *)
Lemma validate_inputs_exit {R} (s s' : self R) e :
  validate_inputs s = (inr e, s') → ∃ fmt arg, e = FailJson fmt arg.
Proof.
  unfold validate_inputs. intros Hrun. cases; eauto.
Qed.

Lemma init_exit `{OntapRestAPI R} (s s' : self R) e :
  init s = (inr e, s') → ∃ fmt arg, e = FailJson fmt arg.
Proof.
  rewrite init_run. simpl. intros Hrun.
  repeat case_match; simplify_eq/=; eauto using validate_inputs_exit.
Qed.

(** ** Create *)

Lemma create_body_unfold (p : params) :
  create_body p =
    let body : gmap string value := {["name" := VStr (p_name p)]} in
    let body := match p_vserver p with
                | Some vserver => <["svm.name" := VStr vserver]> body
                | None => body
                end in
    let body := match p_ipspace p with
                | Some v => <["ipspace" := VStr v]> body
                | None => body
                end in
    let body := match p_scope p with
                | Some v => <["scope" := VStr v]> body
                | None => body
                end in
    match p_services p with
    | Some v => <["services" := VList v]> body
    | None => body
    end.
Proof.
  unfold create_body, param_get. simpl.
  repeat (first [rewrite decide_True by done | rewrite decide_False by done]).
  by destruct (p_ipspace p), (p_scope p), (p_services p).
Qed.

Lemma create_body_lookup (p : params) :
  create_body p !! "name" = Some (VStr (p_name p)) ∧
  create_body p !! "svm.name" = VStr <$> p_vserver p ∧
  create_body p !! "ipspace" = VStr <$> p_ipspace p ∧
  create_body p !! "scope" = VStr <$> p_scope p ∧
  create_body p !! "services" = VList <$> p_services p.
Proof.
  rewrite create_body_unfold.
  destruct (p_vserver p), (p_ipspace p), (p_scope p), (p_services p);
    repeat split; by simplify_map_eq.
Qed.

Lemma create_body_other (p : params) (key : string) :
  key ∉ ["name"; "svm.name"; "ipspace"; "scope"; "services"] →
  create_body p !! key = None.
Proof.
  intros Hkey. rewrite create_body_unfold.
  destruct (p_vserver p), (p_ipspace p), (p_scope p), (p_services p); simpl;
    repeat (rewrite lookup_insert_ne; [|intros <-; apply Hkey; set_solver]);
    (rewrite lookup_singleton_ne; [done|intros <-; apply Hkey; set_solver]).
Qed.

Lemma create_service_policy_run `{OntapRestAPI R} (s : self R) :
  create_service_policy s =
    let body := create_body (parameters s) in
    let '(r, error) := rest_post (remote s) api_service_policies body in
    (if truthy_error error
     then inr (FailJson "Error in create_service_policy: %s" (FOptStr error))
     else inl tt,
     called (POST api_service_policies body) r s).
Proof.
  unfold create_service_policy, api_post. method.
  destruct (rest_post _ _ _) as [r error]. by destruct (truthy_error error).
Qed.

(** ** Planner *)

(** The helper's flag after a change was detected. *)
Lemma set_changed_run {R} (s : self R) :
  set_changed s =
    (inl tt, Self (module_params s) (check_mode s) (parameters s) true
                  (remote s) (calls s)).
Proof. done. Qed.

Lemma get_actions_run `{OntapRestAPI R} `{DiffEngine} (s : self R) :
  get_actions s =
    let desired := parameters s in
    let s1 := called (GET api_service_policies (get_query desired)) (remote s) s in
    match lookup_now (remote s) desired with
    | (current, error) =>
        if truthy_error error then
          (inr (FailJson "Error in get_service_policy: %s" (FOptStr error)), s1)
        else
          match current, bool_decide (p_state desired = Some "absent") with
          | None, false => (inl (Some "create", None, None), (set_changed s1).2)
          | Some record, true =>
              (inl (Some "delete", None, Some record), (set_changed s1).2)
          | Some record, false =>
              let modified := attribute_diff record desired in
              (inl (None, Some modified, Some record),
               if bool_decide (modified = ∅) then s1 else (set_changed s1).2)
          | None, true => (inl (None, Some ∅, None), s1)
          end
    end.
Proof.
  unfold get_actions. unfold mbind at 1, M_bind at 1.
  rewrite get_service_policy_run.
  destruct (lookup_now _ _) as [current error].
  destruct (truthy_error error); [done|].
  unfold get_cd_action, get_modified_attributes. method.
  destruct current as [record|], (bool_decide (p_state _ = _)); simpl; try done.
  by destruct (bool_decide (attribute_diff _ _ = ∅)).
Qed.

Lemma get_actions_frame `{OntapRestAPI R} `{DiffEngine} (s s' : self R) o :
  get_actions s = (o, s') →
  module_params s' = module_params s ∧ check_mode s' = check_mode s ∧
  parameters s' = parameters s ∧ remote s' = remote s ∧
  calls s' = calls s ++ [GET api_service_policies (get_query (parameters s))].
Proof.
  rewrite get_actions_run. simpl. intros Hrun.
  repeat case_match; simplify_eq/=; done.
Qed.

(** ** Modify *)

#[local] Arguments str_in : simpl never.

Lemma modify_split_from (copy0 m : gmap string value) :
  let '(body, modify_copy) :=
    map_fold modify_step (∅, copy0) m in
  ∀ key,
    body !! key = (if str_in key "services" then m !! key else None) ∧
    modify_copy !! key =
      (if str_in key "services"
       then match m !! key with Some _ => None | None => copy0 !! key end
       else copy0 !! key).
Proof.
  apply (map_fold_weak_ind (λ (acc : gmap string value * gmap string value) m,
    let '(body, modify_copy) := acc in
    ∀ key,
      body !! key = (if str_in key "services" then m !! key else None) ∧
      modify_copy !! key =
        (if str_in key "services"
         then match m !! key with Some _ => None | None => copy0 !! key end
         else copy0 !! key))).
  - intros key. rewrite !lookup_empty. by destruct (str_in key "services").
  - intros i x m' [body modify_copy] Hi IH. unfold modify_step.
    destruct (str_in i "services") eqn:Hin; intros key;
      destruct (IH key) as [IHb IHc]; destruct (decide (key = i)) as [->|Hne].
    + rewrite Hin. by simplify_map_eq.
    + by simplify_map_eq.
    + rewrite Hin in *. by simplify_map_eq.
    + by simplify_map_eq.
Qed.

Lemma modify_split_lookup (modify : gmap string value) (key : string) :
  (modify_split modify).1 !! key =
    (if str_in key "services" then modify !! key else None) ∧
  (modify_split modify).2 !! key =
    (if str_in key "services" then None else modify !! key).
Proof.
  unfold modify_split.
  pose proof (modify_split_from modify modify) as Hsplit.
  destruct (map_fold _ _ _) as [body modify_copy]. cbn [fst snd].
  destruct (Hsplit key) as [-> ->].
  destruct (str_in key "services"); [|done].
  by destruct (modify !! key).
Qed.

Lemma modify_service_policy_run `{OntapRestAPI R}
    (record : service_policy) (modify : gmap string value) (s : self R) :
  modify_service_policy (Some record) modify s =
    let api := "network/ip/service-policies/" +:+ sp_uuid record in
    let body := (modify_split modify).1 in
    let modify_copy := (modify_split modify).2 in
    if negb (bool_decide (modify_copy = ∅)) then
      (inr (FailJson "Error: attributes not supported in modify: %s"
                     (FDict modify_copy)), s)
    else if bool_decide (body = ∅) then
      (inr (FailJson "Error: nothing to change - modify called with: %s"
                     (FDict modify)), s)
    else
      let '(r, error) := rest_patch (remote s) api body in
      (if truthy_error error
       then inr (FailJson "Error in modify_service_policy: %s" (FOptStr error))
       else inl tt,
       called (PATCH api body) r s).
Proof.
  unfold modify_service_policy, api_patch, current_uuid. method.
  destruct (modify_split modify) as [body modify_copy]. cbn [fst snd]. method.
  destruct (bool_decide (modify_copy = ∅)); simpl; [|done].
  destruct (bool_decide (body = ∅)); simpl; [done|].
  destruct (rest_patch _ _ _) as [r error]. by destruct (truthy_error error).
Qed.

(** A diff none of whose keys is a proper part of the word [services] is
    handled as a diff on [services] alone: another key, or no [services]
    key, ends the run with the object untouched, and the diff on [services]
    is sent as the body of one PATCH to the record's path. *)
Lemma modify_service_policy_whole_keys `{OntapRestAPI R}
    (record : service_policy) (modify : gmap string value) (s : self R) :
  (∀ key, is_Some (modify !! key) → str_in key "services" = true →
          key = "services") →
  ((∃ key, key ≠ "services" ∧ is_Some (modify !! key)) →
   ∃ arg, modify_service_policy (Some record) modify s =
            (inr (FailJson "Error: attributes not supported in modify: %s" arg), s)) ∧
  (modify !! "services" = None →
   ∃ fmt arg, modify_service_policy (Some record) modify s =
                (inr (FailJson fmt arg), s)) ∧
  (∀ v, modify = {["services" := v]} →
   ∃ o, modify_service_policy (Some record) modify s =
          (o, called (PATCH ("network/ip/service-policies/" +:+ sp_uuid record)
                            {["services" := v]})
                     (rest_patch (remote s)
                        ("network/ip/service-policies/" +:+ sp_uuid record)
                        {["services" := v]}).1 s)).
Proof.
  intros Hkeys. rewrite modify_service_policy_run. cbn zeta.
  split; [|split].
  - intros (key & Hne & Hsome).
    destruct (str_in key "services") eqn:Hin; [by apply Hkeys in Hin|].
    destruct (modify_split_lookup modify key) as [_ Hcopy]. rewrite Hin in Hcopy.
    rewrite bool_decide_eq_false_2; [by eauto|].
    intros Hempty. rewrite Hempty, lookup_empty in Hcopy.
    rewrite <-Hcopy in Hsome. by destruct Hsome.
  - intros Hnone. case_bool_decide; simpl; [|by eauto].
    rewrite bool_decide_eq_true_2; [by eauto|].
    apply map_empty. intros key.
    destruct (modify_split_lookup modify key) as [-> _].
    destruct (str_in key "services") eqn:Hin; [|done].
    destruct (modify !! key) eqn:Hkey; [|done].
    rewrite (Hkeys key) in Hkey by eauto. congruence.
  - intros v ->.
    assert ((modify_split {["services" := v]}).1 = {["services" := v]}) as ->.
    { apply map_eq. intros key.
      destruct (modify_split_lookup {["services" := v]} key) as [-> _].
      destruct (str_in key "services") eqn:Hin; [done|].
      destruct (decide (key = "services")) as [->|Hne]; [done|].
      by rewrite lookup_singleton_ne. }
    assert ((modify_split {["services" := v]}).2 = ∅) as ->.
    { apply map_empty. intros key.
      destruct (modify_split_lookup {["services" := v]} key) as [_ ->].
      destruct (str_in key "services") eqn:Hin; [done|].
      destruct (decide (key = "services")) as [->|Hne]; [done|].
      by rewrite lookup_singleton_ne. }
    rewrite bool_decide_eq_true_2 by done. simpl.
    rewrite bool_decide_eq_false_2.
    2:{ intros Hempty. apply (f_equal (lookup "services")) in Hempty.
        by rewrite lookup_singleton_eq, lookup_empty in Hempty. }
    destruct (rest_patch _ _ _) as [r error]. simpl. eauto.
Qed.

Lemma delete_service_policy_run `{OntapRestAPI R}
    (record : service_policy) (s : self R) :
  delete_service_policy (Some record) s =
    let api := "network/ip/service-policies/" +:+ sp_uuid record in
    let '(r, error) := rest_delete (remote s) api in
    (if truthy_error error
     then inr (FailJson "Error in delete_service_policy: %s" (FOptStr error))
     else inl tt,
     called (DELETE api) r s).
Proof.
  unfold delete_service_policy, api_delete, current_uuid. method.
  destruct (rest_delete _ _) as [r error]. by destruct (truthy_error error).
Qed.

(** ** Apply *)

(** The mutator [apply] picks for the planner's result. *)
Lemma apply_run `{OntapRestAPI R} `{DiffEngine} (s : self R) :
  apply s =
    match get_actions s with
    | (inl (cd_action, modify, current), s1) =>
        let mutate : M R unit :=
          if bool_decide (cd_action = Some "create") then create_service_policy
          else if bool_decide (cd_action = Some "delete")
               then delete_service_policy current
          else if truthy_modify modify
               then modify_service_policy current (default ∅ modify)
          else mret tt in
        match (if na_changed s1 && negb (check_mode s1)
               then mutate s1 else (inl tt, s1)) with
        | (inl _, s2) =>
            (inr (ExitJson (Report (na_changed s2) cd_action modify
                                   (module_params s2))), s2)
        | (inr e, s2) => (inr e, s2)
        end
    | (inr e, s1) => (inr e, s1)
    end.
Proof.
  unfold apply. unfold mbind at 1, M_bind at 1.
  destruct (get_actions s) as [[[[cd_action modify] current]|e] s1]; [|done].
  method. destruct (na_changed s1 && negb (check_mode s1)); [|done].
  by destruct (_ s1) as [[[]|e] s2].
Qed.

Lemma main_run `{OntapRestAPI R} `{DiffEngine} (args : params) (check : bool) (r : R) :
  main args check r =
    match init (new_self args check r) with
    | (inl _, s0) => apply s0
    | (inr e, s0) => (inr e, s0)
    end.
Proof.
  unfold main. unfold mbind at 1, M_bind at 1.
  by destruct (init _) as [[[]|e] s0].
Qed.

(** A run that stops in the constructor has issued no call, or the
    version gate's request alone. *)
Lemma main_init_fails `{OntapRestAPI R} `{DiffEngine}
    (args : params) (check : bool) (r : R) :
  (∀ s0, init (new_self args check r) ≠ (inl tt, s0)) →
  ∃ fmt arg s', main args check r = (inr (FailJson fmt arg), s') ∧
                (calls s' = [] ∨ calls s' = [version_request]) ∧
                remote s' = r.
Proof.
  intros Hfail. rewrite main_run.
  destruct (init _) as [[[]|e] s0] eqn:Hinit; [by destruct (Hfail s0)|].
  destruct (init_exit _ _ _ Hinit) as (fmt & arg & ->).
  destruct (init_frame _ _ _ Hinit) as (_ & _ & Hr & Hc).
  by exists fmt, arg, s0.
Qed.

(** A run the framework refuses has issued no call at all. *)
Lemma main_framework_refuses `{OntapRestAPI R} `{DiffEngine}
    (args : params) (check : bool) (r : R) :
  check_choices args && check_required_one_of args && check_required_if args
    = false →
  ∃ fmt arg s', main args check r = (inr (FailJson fmt arg), s') ∧
                calls s' = [] ∧ remote s' = r.
Proof.
  intros Hchecks. rewrite main_run.
  destruct (init _) as [o s0] eqn:Hinit.
  destruct (init_frame _ _ _ Hinit) as (_ & _ & Hr & _).
  apply init_calls in Hinit. simpl in Hinit. rewrite Hchecks in Hinit.
  destruct Hinit as (Hc & fmt & arg & ->). by exists fmt, arg, s0.
Qed.

(** Where the constructor hands over to [apply]. *)
Lemma init_new_self `{OntapRestAPI R} (args : params) (check : bool) (r : R) s0 :
  init (new_self args check r) = (inl tt, s0) →
  module_params s0 = with_defaults args ∧ check_mode s0 = check ∧
  na_changed s0 = false ∧ remote s0 = r ∧ calls s0 = [version_request].
Proof.
  intros Hinit. destruct (init_frame _ _ _ Hinit) as (? & ? & ? & _).
  destruct (init_ok _ _ Hinit) as (Hc & Ho & Hi & ? & _).
  apply init_calls in Hinit. simpl in *. rewrite Hc, Ho, Hi in Hinit. done.
Qed.

(** The mutators leave the module's own fields alone. *)
Lemma mutators_frame `{OntapRestAPI R}
    (cd_action : option string) (modify : option (gmap string value))
    (current : option service_policy) (s1 s2 : self R) o :
  (if bool_decide (cd_action = Some "create") then create_service_policy
   else if bool_decide (cd_action = Some "delete")
        then delete_service_policy current
   else if truthy_modify modify
        then modify_service_policy current (default ∅ modify)
   else mret tt) s1 = (o, s2) →
  module_params s2 = module_params s1 ∧ check_mode s2 = check_mode s1 ∧
  parameters s2 = parameters s1 ∧ na_changed s2 = na_changed s1 ∧
  ∀ rep, o ≠ inr (ExitJson rep).
Proof.
  repeat case_match.
  - rewrite create_service_policy_run. cbn zeta.
    destruct (rest_post _ _ _). intros [= <- <-]. by case_match.
  - destruct current as [record|]; [|by intros [= <- <-]].
    rewrite delete_service_policy_run. cbn zeta.
    destruct (rest_delete _ _). intros [= <- <-]. by case_match.
  - destruct current as [record|]; [|by intros [= <- <-]].
    rewrite modify_service_policy_run. cbn zeta.
    repeat case_match; by intros [= <- <-].
  - by intros [= <- <-].
Qed.

(** C9: on every successful completion the field [scope] of the exit report
    is the whole parameter map [module.params] (the task's arguments with
    the declared default of [state]), not the scope string. *)
Theorem exit_report_scope_is_module_params `{OntapRestAPI R} `{DiffEngine}
    (args : params) (check : bool) (r : R) (rep : report) (s' : self R) :
  main args check r = (inr (ExitJson rep), s') →
  rep_scope rep = with_defaults args ∧ rep_scope rep = module_params s'.
Proof.
  rewrite main_run.
  destruct (init _) as [[[]|e] s0] eqn:Hinit.
  2:{ intros ?; simplify_eq. by destruct (init_exit _ _ _ Hinit) as (? & ? & ?). }
  destruct (init_new_self _ _ _ _ Hinit) as (Hm & _).
  rewrite apply_run.
  destruct (get_actions s0) as [[[[cd_action modify] current]|e] s1] eqn:Hplan.
  2:{ intros ?; simplify_eq. rewrite get_actions_run in Hplan.
      cbn zeta in Hplan. repeat case_match; simplify_eq/=. }
  destruct (get_actions_frame _ _ _ Hplan) as (Hm1 & _).
  cbn zeta.
  destruct (na_changed s1 && negb (check_mode s1)).
  - destruct (_ s1) as [[[]|e] s2] eqn:Hmut; intros ?; simplify_eq/=;
      apply mutators_frame in Hmut as (Hm2 & _ & _ & _ & Hexit).
    + by rewrite Hm2, Hm1, Hm.
    + by destruct (Hexit rep).
  - intros ?; simplify_eq/=. by rewrite Hm1, Hm.
Qed.

(** ** Claims on validation *)

Lemma validate_inputs_no_service {R} (s : self R) (l : list string) :
  p_services (parameters s) = Some l → "no_service" ∈ l → 1 < length l →
  validate_inputs s =
    (inr (FailJson "Error: no other service can be present when no_service is specified.  Got: %s"
                   (FList l)), s).
Proof.
  intros Hl Hin Hlen. unfold validate_inputs. method. rewrite Hl.
  destruct l as [|x l]; [by inversion Hin|].
  unfold list_in. rewrite bool_decide_eq_true_2 by done.
  by rewrite bool_decide_eq_true_2 by done.
Qed.

Lemma other_service_length (l : list string) :
  "no_service" ∈ l → (∃ x, x ∈ l ∧ x ≠ "no_service") → 1 < length l.
Proof.
  intros Hin (x & Hx & Hne).
  destruct l as [|a [|b l]]; simpl; [by inversion Hin| |lia].
  apply list_elem_of_singleton in Hin, Hx. congruence.
Qed.

(** [validate_inputs] reads and writes [parameters] only. *)
Lemma validate_inputs_uniform {R} (mp p : params) :
  ∃ o p', ∀ (check c : bool) (r : R) (l : list call),
    validate_inputs (Self mp check p c r l) = (o, Self mp check p' c r l).
Proof.
  unfold validate_inputs. method.
  destruct (p_services p) as [[|x l']|] eqn:Hserv; simpl;
    try destruct (list_in "no_service" (x :: l')); simpl;
    try destruct (bool_decide (1 < S (length l'))); simpl;
    try (by do 2 eexists);
    destruct (p_scope p) as [sc|] eqn:Hscope; simpl;
    try destruct (bool_decide (sc = "cluster") && _); simpl;
    try destruct (bool_decide (sc = "svm") && _); simpl;
    by do 2 eexists.
Qed.

Lemma validate_inputs_param {R} (s s' : self R) o (check : bool) (c : bool)
    (r : R) (l : list call) :
  validate_inputs s = (o, s') →
  validate_inputs (Self (module_params s) check (parameters s) c r l) =
    (o, Self (module_params s') check (parameters s') c r l).
Proof.
  destruct (validate_inputs_uniform (R:=R) (module_params s) (parameters s))
    as (o' & p' & Hrun).
  destruct s as [mp ch p c0 r0 l0]. simpl in *.
  rewrite Hrun. intros [= <- <-]. by rewrite Hrun.
Qed.

(** The list [no_service] alone is emptied whatever the scope check says. *)
Lemma validate_inputs_empties {R} (s : self R) :
  p_services (parameters s) = Some ["no_service"] →
  p_services (parameters (validate_inputs s).2) = Some [].
Proof.
  intros Hl.
  destruct (validate_inputs_uniform (R:=R) (module_params s) (parameters s))
    as (o & p' & Hrun).
  destruct s as [mp ch p c0 r0 l0]. simpl in *.
  rewrite Hrun. simpl.
  specialize (Hrun ch c0 r0 l0). revert Hrun.
  unfold validate_inputs. method. rewrite Hl. simpl.
  repeat case_match; intros ?; by simplify_eq/=.
Qed.

(** C3, amended: a services list holding [no_service] together with
    another value makes [validate_inputs] fail, and the run ends in
    [fail_json] with no call to the service-policy endpoint and the remote
    untouched: the one request that may have gone out is the version
    gate's, which the constructor sends before it validates; when the
    framework and the gate let the task through, the failure is the one of
    [validate_inputs] and the gate's request is the only call.  A services
    list that is exactly [no_service] is replaced by the empty list by
    [validate_inputs], whatever else it finds; either the constructor
    returns with that empty list, the gate's request its only call, and
    the rest of the run works on the parameters so normalised, or the run
    ends in [fail_json] with no call to the endpoint. *)
Theorem no_service_validation `{OntapRestAPI R} `{DiffEngine}
    (args : params) (check : bool) (r : R) (l : list string) :
  p_services args = Some l → "no_service" ∈ l →
  ((∃ x, x ∈ l ∧ x ≠ "no_service") →
   (∀ s : self R, p_services (parameters s) = Some l →
      validate_inputs s =
        (inr (FailJson "Error: no other service can be present when no_service is specified.  Got: %s"
                       (FList l)), s)) ∧
   (∃ fmt arg s', main args check r = (inr (FailJson fmt arg), s') ∧
                  (calls s' = [] ∨ calls s' = [version_request]) ∧
                  remote s' = r) ∧
   (check_choices args = true → check_required_one_of args = true →
    check_required_if args = true →
    rest_minimum_version_error r "na_ontap_service_policy" 9 8 = None →
    ∃ s', main args check r =
            (inr (FailJson "Error: no other service can be present when no_service is specified.  Got: %s"
                           (FList l)), s') ∧
          calls s' = [version_request] ∧ remote s' = r)) ∧
  (l = ["no_service"] →
   (∀ s : self R, p_services (parameters s) = Some l →
      p_services (parameters (validate_inputs s).2) = Some []) ∧
   ((∃ s0, init (new_self args check r) = (inl tt, s0) ∧
           p_services (parameters s0) = Some [] ∧
           calls s0 = [version_request] ∧
           main args check r = apply s0) ∨
    (∃ fmt arg s', main args check r = (inr (FailJson fmt arg), s') ∧
                   (calls s' = [] ∨ calls s' = [version_request]) ∧
                   remote s' = r))).
Proof.
  intros Hl Hin. split.
  - intros Hother. pose proof (other_service_length _ Hin Hother) as Hlen.
    split; [intros s Hs; by apply validate_inputs_no_service|]. split.
    + apply main_init_fails. intros s0 Hinit.
      apply init_ok in Hinit as (_ & _ & _ & _ & Hv).
      rewrite (validate_inputs_no_service _ l) in Hv; done.
    + intros Hc Ho Hi Hgate. rewrite main_run, init_run. cbn zeta.
      unfold new_self. cbn [module_params check_mode na_changed remote calls].
      rewrite Hc, Ho, Hi, Hgate. cbn [negb].
      rewrite (validate_inputs_no_service _ l); [by eauto| |done|done].
      unfold with_defaults, set_parameters. by simpl.
  - intros ->. split; [intros s Hs; by apply validate_inputs_empties|].
    destruct (init (new_self args check r)) as [[[]|e] s0] eqn:Hinit.
    + left. exists s0. rewrite main_run, Hinit.
      destruct (init_new_self _ _ _ _ Hinit) as (_ & _ & _ & _ & Hc).
      apply init_ok in Hinit as (_ & _ & _ & _ & Hv).
      apply validate_inputs_ok in Hv as (_ & _ & _ & _ & _ & Hs & _).
      simpl in Hs. by rewrite Hl in Hs.
    + right. apply main_init_fails. intros s0'. by rewrite Hinit.
Qed.

Lemma check_required_scope_cluster (args : params) :
  check_required_if args = true → p_scope args = Some "cluster" →
  param_given args "ipspace" = true.
Proof.
  unfold check_required_if, required_if, param_given, param_get. simpl.
  intros Hreq Hscope. rewrite Hscope in Hreq. simpl in Hreq.
  by apply andb_prop in Hreq as [Hreq _]; apply andb_prop in Hreq as [Hreq _].
Qed.

Lemma check_required_scope_svm (args : params) :
  check_required_if args = true → p_scope args = Some "svm" →
  param_given args "vserver" = true.
Proof.
  unfold check_required_if, required_if, param_given, param_get. simpl.
  intros Hreq Hscope. rewrite Hscope in Hreq. simpl in Hreq.
  by apply andb_prop in Hreq as [Hreq _]; apply andb_prop in Hreq as [Hreq _].
Qed.

Lemma check_required_vserver_null (args : params) :
  check_required_if args = true → p_vserver args = None →
  param_given args "vserver" = true → param_given args "ipspace" = true.
Proof.
  unfold check_required_if, required_if, param_given, param_get. simpl.
  intros Hreq Hvs Hgiven.
  apply andb_prop in Hreq as [_ Hreq]. apply andb_prop in Hreq as [_ Hreq].
  apply andb_prop in Hreq as [Hreq _].
  rewrite Hvs in Hreq, Hgiven. simpl in Hreq, Hgiven.
  rewrite Hgiven in Hreq. simpl in Hreq.
  by apply andb_prop in Hreq as [Hreq _].
Qed.

Lemma check_required_one (args : params) :
  check_required_one_of args = true →
  param_given args "ipspace" = true ∨ param_given args "vserver" = true.
Proof.
  unfold check_required_one_of, required_one_of. simpl.
  rewrite andb_true_r, orb_false_r. by intros ?%orb_prop.
Qed.

Lemma check_choices_scope (args : params) (sc : string) :
  check_choices args = true → p_scope args = Some sc →
  sc = "cluster" ∨ sc = "svm".
Proof.
  unfold check_choices, list_in, scope_choices. intros Hc Hs. rewrite Hs in Hc.
  simpl in Hc. apply andb_prop in Hc as [Hc _]. apply andb_prop in Hc as [_ Hc].
  apply bool_decide_eq_true_1 in Hc. set_solver.
Qed.



(** What the constructor leaves in [parameters]. *)
Lemma init_parameters `{OntapRestAPI R} (args : params) (check : bool) (r : R) s0 :
  init (new_self args check r) = (inl tt, s0) →
  let p := parameters s0 in
  p_state p = Some (default "present" (p_state args)) ∧
  p_name p = p_name args ∧ p_ipspace p = p_ipspace args ∧
  p_vserver p = p_vserver args ∧ p_host p = p_host args ∧
  p_services p = normalized_services (p_services args) ∧
  p_scope p = Some (match p_scope args with
                    | Some sc => sc
                    | None => if decide (p_vserver args = None)
                              then "cluster" else "svm"
                    end) ∧
  (p_scope p = Some "cluster" ∨ p_scope p = Some "svm") ∧
  (p_scope p = Some "cluster" →
   p_vserver p = None ∧ param_given args "ipspace" = true) ∧
  (p_scope p = Some "svm" → is_Some (p_vserver p)).
Proof.
  intros Hinit.
  apply init_ok in Hinit as (Hchoices & Hone & Hif & _ & Hv).
  apply validate_inputs_ok in Hv
    as (Hstate & Hname & Hip & Hvs & Hhost & Hserv & Hscope & Hcl & Hsvm).
  simpl in *. unfold set_parameters, with_defaults in *. simpl in *.
  split_and!; try done.
  - rewrite Hscope. destruct (p_scope args) as [sc|] eqn:Hsc.
    + destruct (check_choices_scope _ _ Hchoices Hsc) as [-> | ->]; eauto.
    + case_decide; eauto.
  - intros Hcluster. rewrite Hvs. specialize (Hcl Hcluster).
    split; [done|].
    destruct (p_scope args) as [sc|] eqn:Hsc.
    + apply check_required_scope_cluster; [done|]. congruence.
    + destruct (check_required_one _ Hone) as [?|?]; [done|].
      by apply check_required_vserver_null.
  - intros Hs. rewrite Hvs. eauto.
Qed.


(** C7: the lookup's query holds the name, the fixed field projection,
    [scope=cluster] exactly when vserver is unset, [svm.name] exactly when
    vserver is set, [ipspace.name] exactly when ipspace is set and no
    other key, and the lookup issues one GET to
    [network/ip/service-policies] with that query, the remote untouched. *)
Theorem get_service_policy_query `{OntapRestAPI R} (s : self R) :
  let p := parameters s in
  let query := get_query p in
  query !! "name" = Some (VStr (p_name p)) ∧
  query !! "fields" = Some (VStr "name,uuid,ipspace,services,svm") ∧
  query !! "scope" =
    (if decide (p_vserver p = None) then Some (VStr "cluster") else None) ∧
  query !! "svm.name" = VStr <$> p_vserver p ∧
  query !! "ipspace.name" = VStr <$> p_ipspace p ∧
  (∀ key, key ∉ ["name"; "fields"; "scope"; "svm.name"; "ipspace.name"] →
          query !! key = None) ∧
  (get_service_policy s).2 =
    called (GET "network/ip/service-policies" query) (remote s) s ∧
  calls (get_service_policy s).2 =
    calls s ++ [GET "network/ip/service-policies" query] ∧
  remote (get_service_policy s).2 = remote s.
Proof.
  intros p query.
  destruct (get_query_lookup p) as (? & ? & ? & ? & ?).
  rewrite get_service_policy_run.
  split_and!; try done. apply get_query_other.
Qed.

(** C8: the body of the create POST holds [name] always, [svm.name] iff
    vserver is set, each of [ipspace], [scope] and [services] iff the
    parameter is not null, and no other key; [create_service_policy] posts
    that body to [network/ip/service-policies]. *)
Theorem create_service_policy_body `{OntapRestAPI R} (s : self R) :
  let p := parameters s in
  let body := create_body p in
  body !! "name" = Some (VStr (p_name p)) ∧
  body !! "svm.name" = VStr <$> p_vserver p ∧
  body !! "ipspace" = VStr <$> p_ipspace p ∧
  body !! "scope" = VStr <$> p_scope p ∧
  body !! "services" = VList <$> p_services p ∧
  (∀ key, key ∉ ["name"; "svm.name"; "ipspace"; "scope"; "services"] →
          body !! key = None) ∧
  calls (create_service_policy s).2 =
    calls s ++ [POST "network/ip/service-policies" body].
Proof.
  intros p body.
  destruct (create_body_lookup p) as (? & ? & ? & ? & ?).
  rewrite create_service_policy_run. cbn zeta.
  split_and!; try done; [apply create_body_other|].
  by destruct (rest_post _ _ _).
Qed.

(** C10: after the constructor returned, the scope parameter is [cluster]
    or [svm]; so the body of a create POST holds the [scope] key, and when
    services was given as the list [no_service] alone the body holds
    [services] with the empty list. *)
Theorem validated_scope_in_create_body `{OntapRestAPI R}
    (args : params) (check : bool) (r : R) (s0 : self R) :
  init (new_self args check r) = (inl tt, s0) →
  let p := parameters s0 in
  (p_scope p = Some "cluster" ∨ p_scope p = Some "svm") ∧
  (create_body p !! "scope" = Some (VStr "cluster") ∨
   create_body p !! "scope" = Some (VStr "svm")) ∧
  (p_services args = Some ["no_service"] →
   p_services p = Some [] ∧ create_body p !! "services" = Some (VList [])) ∧
  (∀ s : self R, parameters s = p →
     calls (create_service_policy s).2 =
       calls s ++ [POST "network/ip/service-policies" (create_body p)]).
Proof.
  intros Hinit. cbn zeta.
  destruct (init_parameters _ _ _ _ Hinit)
    as (_ & _ & _ & _ & _ & Hserv & _ & Hscope & _).
  destruct (create_body_lookup (parameters s0)) as (_ & _ & _ & Hbs & Hbv).
  split_and!.
  - done.
  - rewrite Hbs. by destruct Hscope as [-> | ->]; [left|right].
  - intros Hargs. rewrite Hbv, Hserv, Hargs. done.
  - intros s Hs. rewrite create_service_policy_run, Hs. cbn zeta.
    by destruct (rest_post _ _ _).
Qed.

(** ** Claims on the planner and the gate *)

(** C6: in check mode the remote is the one the run started with and no
    POST, PATCH or DELETE is issued, whatever the arguments; and once the
    constructor returned, the lookup's GET with the query of the validated
    parameters is issued, after the version gate's request and as the last
    call of the run, and the run ends on what that GET answered: in
    [fail_json] on its error, else in [exit_json] with [changed],
    [cd_action] and [modify] as the planner plans them for the record
    found (create, delete, the attribute diff, or nothing). *)
Theorem check_mode_invokes_no_mutator `{OntapRestAPI R} `{DiffEngine}
    (args : params) (r : R) :
  remote (main args true r).2 = r ∧
  (∀ c, c ∈ calls (main args true r).2 → ∃ api query, c = GET api query) ∧
  (∀ s0, init (new_self args true r) = (inl tt, s0) →
     let desired := parameters s0 in
     calls (main args true r).2 =
       [version_request;
        GET "network/ip/service-policies" (get_query desired)] ∧
     (main args true r).1 =
       let '(response, error) :=
         rest_get r "network/ip/service-policies" (get_query desired) in
       match check_for_0_or_1_records "network/ip/service-policies"
                                      response error with
       | (current, error) =>
           if truthy_error error then
             inr (FailJson "Error in get_service_policy: %s" (FOptStr error))
           else
             inr (ExitJson
               match current,
                     bool_decide (p_state desired = Some "absent") with
               | None, false =>
                   Report true (Some "create") None (with_defaults args)
               | Some _, true =>
                   Report true (Some "delete") None (with_defaults args)
               | Some record, false =>
                   Report (negb (bool_decide
                                   (attribute_diff record desired = ∅)))
                          None (Some (attribute_diff record desired))
                          (with_defaults args)
               | None, true =>
                   Report false None (Some ∅) (with_defaults args)
               end)
       end).
Proof.
  rewrite main_run.
  destruct (init _) as [[[]|e] s0] eqn:Hinit.
  2:{ destruct (init_frame _ _ _ Hinit) as (_ & _ & Hr & Hc).
      split_and!; [done| |done]. simpl. unfold version_request.
      intros c. destruct Hc as [-> | ->]; simpl.
      - by intros ?%elem_of_nil.
      - intros ->%list_elem_of_singleton. eauto. }
  destruct (init_new_self _ _ _ _ Hinit) as (Hm & Hcheck & Hch & Hr & Hc).
  assert (calls (apply s0).2 =
            [version_request;
             GET "network/ip/service-policies" (get_query (parameters s0))] ∧
          remote (apply s0).2 = r ∧
          (apply s0).1 =
            let '(response, error) :=
              rest_get r "network/ip/service-policies"
                       (get_query (parameters s0)) in
            match check_for_0_or_1_records "network/ip/service-policies"
                                           response error with
            | (current, error) =>
                if truthy_error error then
                  inr (FailJson "Error in get_service_policy: %s" (FOptStr error))
                else
                  inr (ExitJson
                    match current,
                          bool_decide (p_state (parameters s0) = Some "absent") with
                    | None, false =>
                        Report true (Some "create") None (with_defaults args)
                    | Some _, true =>
                        Report true (Some "delete") None (with_defaults args)
                    | Some record, false =>
                        Report (negb (bool_decide
                                        (attribute_diff record (parameters s0) = ∅)))
                               None (Some (attribute_diff record (parameters s0)))
                               (with_defaults args)
                    | None, true =>
                        Report false None (Some ∅) (with_defaults args)
                    end)
            end) as (Hcalls & Hremote & Hout).
  { rewrite apply_run, get_actions_run. cbn zeta.
    unfold lookup_now, api_service_policies. rewrite Hr.
    destruct (rest_get r _ _) as [response error].
    destruct (check_for_0_or_1_records _ response error) as [current error'].
    destruct (truthy_error error'); [simpl; by rewrite Hc|].
    destruct current as [record|],
      (bool_decide (p_state (parameters s0) = Some "absent")); simpl;
      rewrite ?Hcheck, ?Hch, ?Hc, ?Hm, ?andb_false_r; simpl;
      rewrite ?Hcheck, ?Hch, ?Hc, ?Hm, ?andb_false_r; try done.
    destruct (bool_decide (attribute_diff record (parameters s0) = ∅)); simpl;
      rewrite ?Hcheck, ?Hch, ?Hc, ?Hm, ?andb_false_r; simpl;
      by rewrite ?Hcheck, ?Hch, ?Hc, ?Hm, ?andb_false_r. }
  split_and!; [done| |].
  - intros c. rewrite Hcalls. unfold version_request.
    intros [->|[->|?%elem_of_nil]%elem_of_cons]%elem_of_cons; by eauto.
  - intros s0' [= <-]. by split.
Qed.

(** C1: once the lookup returned the current state, the planner's result
    is fixed by the current state and the desired state: absent and present
    give create, present and absent give delete, present and present give
    no create or delete and the attribute diff as [modify], absent and
    absent give no create or delete and an empty [modify]; [modify] is
    computed only when [cd_action] is null; the helper's [changed] is set
    iff [cd_action] is not null or the diff is not empty, and that flag is
    the one reported on exit; out of check mode [apply] runs create, delete,
    modify (exactly when the diff is not empty) or nothing accordingly. *)
Theorem planner_table `{OntapRestAPI R} `{DiffEngine}
    (s s1 : self R) (current : option service_policy) :
  get_service_policy s = (inl current, s1) →
  let desired := parameters s in
  ∃ cd_action modify s2,
    get_actions s = (inl (cd_action, modify, current), s2) ∧
    match current, bool_decide (p_state desired = Some "absent") with
    | None, false => cd_action = Some "create" ∧ modify = None
    | Some _, true => cd_action = Some "delete" ∧ modify = None
    | Some record, false =>
        cd_action = None ∧ modify = Some (attribute_diff record desired)
    | None, true => cd_action = None ∧ modify = Some ∅
    end ∧
    (is_Some modify ↔ cd_action = None) ∧
    (na_changed s = false →
     (na_changed s2 = true ↔ cd_action ≠ None ∨ truthy_modify modify = true) ∧
     (∀ rep s', apply s = (inr (ExitJson rep), s') →
        rep_cd_action rep = cd_action ∧ rep_modify rep = modify ∧
        (rep_changed rep = true ↔
         rep_cd_action rep ≠ None ∨ truthy_modify (rep_modify rep) = true)) ∧
     (check_mode s = false →
      (apply s).2 =
        match current, bool_decide (p_state desired = Some "absent") with
        | None, false => (create_service_policy s2).2
        | Some _, true => (delete_service_policy current s2).2
        | Some record, false =>
            if bool_decide (attribute_diff record desired = ∅) then s2
            else (modify_service_policy current
                    (attribute_diff record desired) s2).2
        | None, true => s2
        end)).
Proof.
  intros Hget. cbn zeta.
  rewrite get_service_policy_run in Hget.
  pose proof (apply_run s) as Happly.
  rewrite get_actions_run in *. cbn zeta in *.
  destruct (lookup_now (remote s) (parameters s)) as [current' error].
  destruct (truthy_error error); simpl in Hget; [done|].
  injection Hget as -> <-.
  destruct current as [record|],
    (bool_decide (p_state (parameters s) = Some "absent")) eqn:Hstate.
  - (* present, absent *)
    do 3 eexists. split; [reflexivity|]. split; [done|].
    split; [split; [by intros []|done]|].
    intros Hc. simpl in Happly |- *. split; [naive_solver|]. split.
    + intros rep s'. rewrite Happly.
      destruct (check_mode s); simpl; [intros ?; simplify_eq/=; naive_solver|].
      rewrite delete_service_policy_run. cbn zeta.
      destruct (rest_delete _ _) as [r' error']. destruct (truthy_error error').
      * by intros ?; simplify_eq/=.
      * intros ?; simplify_eq/=. naive_solver.
    + intros Hcheck. rewrite Happly, Hcheck. clear Happly. simpl.
      by destruct (delete_service_policy _ _) as [[[]|e] s2].
  - (* present, present *)
    do 3 eexists. split; [reflexivity|]. split; [done|].
    split; [split; [done|by eauto]|].
    intros Hc. simpl in Happly |- *.
    destruct (bool_decide (attribute_diff record (parameters s) = ∅)) eqn:Hdiff;
      simpl in Happly |- *; rewrite ?Hc in Happly |- *; simpl in Happly |- *.
    + split; [naive_solver|]. split.
      * intros rep s'. rewrite Happly. intros ?; simplify_eq/=.
        rewrite Hc, Hdiff. naive_solver.
      * intros _. by rewrite Happly.
    + split; [naive_solver|]. split.
      * intros rep s'. rewrite Happly.
        destruct (check_mode s); simpl;
          [intros ?; simplify_eq/=; rewrite Hdiff; naive_solver|].
        rewrite modify_service_policy_run. cbn zeta.
        repeat case_match; intros ?; simplify_eq/=.
        all: rewrite Hdiff; naive_solver.
      * intros Hcheck. rewrite Happly, Hcheck. clear Happly. simpl.
        by destruct (modify_service_policy _ _ _) as [[[]|e] s2].
  - (* absent, absent *)
    do 3 eexists. split; [reflexivity|]. split; [done|].
    split; [split; [done|by eauto]|].
    intros Hc. simpl in Happly |- *. rewrite ?Hc in Happly |- *.
    simpl in Happly |- *.
    split; [naive_solver|]. split.
    + intros rep s'. rewrite Happly. intros ?; simplify_eq/=.
      rewrite Hc. naive_solver.
    + intros _. by rewrite Happly.
  - (* absent, present *)
    do 3 eexists. split; [reflexivity|]. split; [done|].
    split; [split; [by intros []|done]|].
    intros Hc. simpl in Happly |- *. split; [naive_solver|]. split.
    + intros rep s'. rewrite Happly.
      destruct (check_mode s); simpl; [intros ?; simplify_eq/=; naive_solver|].
      rewrite create_service_policy_run. cbn zeta.
      destruct (rest_post _ _ _) as [r' error']. destruct (truthy_error error').
      * by intros ?; simplify_eq/=.
      * intros ?; simplify_eq/=. naive_solver.
    + intros Hcheck. rewrite Happly, Hcheck. clear Happly. simpl.
      by destruct (create_service_policy _) as [[[]|e] s2].
Qed.

(** No field of a record is a proper part of the word [services]. *)
Lemma record_fields_whole (key : string) :
  key ∈ record_fields → str_in key "services" = true → key = "services".
Proof.
  unfold record_fields. rewrite !elem_of_cons, elem_of_nil.
  intros [->|[->|[->|[->|[->|[]]]]]]; vm_compute; congruence.
Qed.

(** C4: on a computed diff, whose keys are fields of the current record,
    [modify_service_policy] fails with the object untouched, no PATCH
    issued, when the diff holds a key other than [services], and when it
    holds no [services] key; a diff on [services] alone is sent as the
    body of one PATCH to the path of the record's uuid. *)
Theorem modify_service_policy_computed_diff `{OntapRestAPI R}
    (record : service_policy) (modify : gmap string value) (s : self R) :
  (∀ key, is_Some (modify !! key) → key ∈ record_fields) →
  ((∃ key, key ≠ "services" ∧ is_Some (modify !! key)) →
   ∃ arg, modify_service_policy (Some record) modify s =
            (inr (FailJson "Error: attributes not supported in modify: %s" arg), s)) ∧
  (modify !! "services" = None →
   ∃ fmt arg, modify_service_policy (Some record) modify s =
                (inr (FailJson fmt arg), s)) ∧
  (∀ v, modify = {["services" := v]} →
   ∃ o, modify_service_policy (Some record) modify s =
          (o, called (PATCH ("network/ip/service-policies/" +:+ sp_uuid record)
                            {["services" := v]})
                     (rest_patch (remote s)
                        ("network/ip/service-policies/" +:+ sp_uuid record)
                        {["services" := v]}).1 s)).
Proof.
  intros Hkeys. apply modify_service_policy_whole_keys.
  intros key Hkey. apply record_fields_whole. by apply Hkeys.
Qed.
(** ** Running twice *)

(** The constructor's result does not depend on the mode, nor on the
    remote beyond the verdict of the version gate. *)
Lemma init_param `{OntapRestAPI R} (args : params) (check check' : bool)
    (r r' : R) (s0 : self R) :
  init (new_self args check r) = (inl tt, s0) →
  rest_minimum_version_error r' "na_ontap_service_policy" 9 8 =
    rest_minimum_version_error r "na_ontap_service_policy" 9 8 →
  s0 = Self (module_params s0) check (parameters s0) false r [version_request] ∧
  init (new_self args check' r') =
    (inl tt, Self (module_params s0) check' (parameters s0) false r'
                  [version_request]).
Proof.
  intros Hinit Hver.
  destruct (init_new_self _ _ _ _ Hinit) as (Hm & Hcheck & Hc & Hr & Hl).
  split; [destruct s0; simpl in *; congruence|].
  rewrite init_run in Hinit |- *. simpl in Hinit |- *. rewrite Hver.
  repeat case_match; simplify_eq/=.
  by apply (validate_inputs_param _ _ _ check' false r' [version_request])
    in Hinit.
Qed.

(** On a remote that is as desired, a run plans nothing and reports no
    change, after one GET. *)
Lemma apply_in_desired_state `{OntapRestAPI R} `{DiffEngine} (s : self R) :
  na_changed s = false →
  in_desired_state (remote s) (parameters s) = true →
  apply s =
    (inr (ExitJson (Report false None (Some ∅) (module_params s))),
     called (GET api_service_policies (get_query (parameters s))) (remote s) s).
Proof.
  intros Hc. unfold in_desired_state. rewrite apply_run, get_actions_run.
  cbn zeta.
  destruct (lookup_now _ _) as [[record|] error]; intros Hd.
  - apply andb_prop in Hd as [Hd Hdiff]. apply andb_prop in Hd as [He Hs].
    apply negb_true_iff in He, Hs. rewrite He, Hs, Hdiff. simpl.
    rewrite Hc. simpl. apply bool_decide_eq_true_1 in Hdiff.
    by rewrite Hdiff, Hc.
  - apply andb_prop in Hd as [He Hs].
    apply negb_true_iff in He. rewrite He, Hs. simpl. rewrite Hc. simpl.
    by rewrite Hc.
Qed.

(** *** What the lookup finds on a backend that applies its requests *)

Lemma lookup_now_policies `{AppliesRequests R} (r : R) (p : params) :
  lookup_now r p =
    match filter (λ record, sim_matches (get_query p) record = true)
                 (policies r) with
    | [] => (None, None)
    | [record] => (Some record, None)
    | _ => (None, Some ("unexpected number of records for " +:+
                        api_service_policies))
    end.
Proof. unfold lookup_now. by rewrite get_answers. Qed.

Lemma lookup_now_found `{AppliesRequests R} (r : R) (p : params)
    (current : option service_policy) (error : option string) :
  lookup_now r p = (current, error) → truthy_error error = false →
  filter (λ record, sim_matches (get_query p) record = true) (policies r) =
    match current with Some record => [record] | None => [] end.
Proof.
  rewrite lookup_now_policies.
  destruct (filter _ _) as [|record [|record' l]];
    intros ? ?; by simplify_eq/=.
Qed.

Lemma lookup_now_matches `{AppliesRequests R} (r : R) (p : params)
    (record : service_policy) (error : option string) :
  lookup_now r p = (Some record, error) →
  sim_matches (get_query p) record = true.
Proof.
  rewrite lookup_now_policies.
  destruct (filter _ _) as [|record' [|record'' l]] eqn:Hfilter;
    intros ?; simplify_eq/=.
  assert (record ∈ filter (λ record, sim_matches (get_query p) record = true)
                          (policies r)) as Hin
    by (rewrite Hfilter; apply list_elem_of_singleton; done).
  by apply list_elem_of_filter in Hin as [? _].
Qed.

(** The policy a POST of the create body makes is the one the lookup asks
    for, with the desired services. *)
Lemma created_matches (p : params) (uuid : string) (record : service_policy) :
  created uuid (create_body p) = Some record →
  sim_matches (get_query p) record = true ∧ services_diff record p = ∅.
Proof.
  unfold created, sim_matches, services_diff.
  destruct (create_body_lookup p) as (-> & -> & -> & _ & ->).
  destruct (get_query_lookup p) as (-> & _ & -> & -> & ->).
  intros [= <-]. simpl.
  destruct (p_vserver p), (p_ipspace p), (p_services p); simpl;
    rewrite ?bool_decide_eq_true_2 by done; done.
Qed.

(** A PATCH changes the services alone: the filters select as before. *)
Lemma patched_matches (query : gmap string value) (api : string)
    (body : gmap string value) (record : service_policy) :
  sim_matches query (patched api body record) = sim_matches query record.
Proof. unfold patched. by repeat case_match. Qed.

Lemma filter_patched (query : gmap string value) (api : string)
    (body : gmap string value) (l : list service_policy) :
  filter (λ record, sim_matches query record = true) (patched api body <$> l) =
  patched api body <$> filter (λ record, sim_matches query record = true) l.
Proof.
  induction l as [|record l IH]; [done|].
  rewrite fmap_cons, !filter_cons, patched_matches.
  case_decide; by rewrite IH.
Qed.

Lemma filter_deleted (query : gmap string value) (api : string)
    (l : list service_policy) :
  filter (λ record, sim_matches query record = true)
         (filter (λ record, sim_path record ≠ api) l) =
  filter (λ record, sim_path record ≠ api)
         (filter (λ record, sim_matches query record = true) l).
Proof.
  induction l as [|record l IH]; [done|].
  rewrite !filter_cons.
  repeat (case_decide; rewrite ?filter_cons); by rewrite ?IH.
Qed.

(** After a PATCH of the desired services to its path, a policy has
    nothing left to modify. *)
Lemma patched_services (record : service_policy) (p : params)
    (body : gmap string value) :
  body !! "services" = services_diff record p !! "services" →
  services_diff record p ≠ ∅ →
  services_diff (patched (sim_path record) body record) p = ∅.
Proof.
  unfold patched, services_diff. rewrite bool_decide_eq_true_2 by done.
  destruct (p_services p) as [l|]; [|done].
  case_bool_decide; [done|].
  rewrite lookup_singleton_eq. intros -> _. simpl.
  by rewrite bool_decide_eq_true_2.
Qed.

(** A run out of check mode that exits, on a backend that applies the
    requests it is sent, leaves the remote as desired and the verdict of
    the version gate as it was. *)
Lemma first_run_settles {R} `{!OntapRestAPI R} `{!AppliesRequests R}
    `{!DiffEngine} `{!DiffsServices}
    (args : params) (r : R) (rep1 : report) (s1 : self R) :
  main args false r = (inr (ExitJson rep1), s1) →
  ∃ s0, init (new_self args false r) = (inl tt, s0) ∧
        parameters s1 = parameters s0 ∧
        (∀ name major minor,
           rest_minimum_version_error (remote s1) name major minor =
           rest_minimum_version_error r name major minor) ∧
        in_desired_state (remote s1) (parameters s0) = true.
Proof.
  rewrite main_run.
  destruct (init _) as [[[]|e] s0] eqn:Hinit.
  2:{ intros ?; simplify_eq. by destruct (init_exit _ _ _ Hinit) as (? & ? & ?). }
  destruct (init_new_self _ _ _ _ Hinit) as (_ & Hcheck & Hc & Hr & Hl).
  intros Hrun. exists s0. split; [done|].
  rewrite apply_run, get_actions_run in Hrun. cbn zeta in Hrun.
  unfold in_desired_state.
  destruct (lookup_now (remote s0) (parameters s0)) as [current error] eqn:Hlook.
  destruct (truthy_error error) eqn:Herr; [done|].
  pose proof (lookup_now_found _ _ _ _ Hlook Herr) as Hfound.
  rewrite Hr in Hlook, Hfound.
  assert (∀ record, current = Some record →
                    sim_matches (get_query (parameters s0)) record = true)
    as Hmatches by (intros record ->; by eapply lookup_now_matches).
  destruct current as [record|],
    (bool_decide (p_state (parameters s0) = Some "absent")) eqn:Hstate;
    simpl in Hrun; rewrite ?Hcheck, ?Hc in Hrun; simpl in Hrun.
  - (* delete *)
    rewrite delete_service_policy_run in Hrun. cbn zeta in Hrun.
    destruct (rest_delete _ _) as [r' error'] eqn:Hdelete.
    destruct (truthy_error error') eqn:Herr'; simplify_eq/=.
    destruct (delete_applies _ _ _ _ Hdelete Herr') as [Hpol Hver].
    split_and!; [done|done|].
    rewrite lookup_now_policies, Hpol, filter_deleted, Hfound, filter_cons.
    rewrite decide_False by (intros Hne; by apply Hne). simpl.
    by rewrite ?Hstate.
  - (* present, present *)
    specialize (Hmatches record eq_refl).
    rewrite diff_is_services in Hrun by done.
    destruct (bool_decide (services_diff record (parameters s0) = ∅)) eqn:Hdiff;
      simpl in Hrun; rewrite ?Hcheck, ?Hc in Hrun; simpl in Hrun.
    + simplify_eq/=. split_and!; [done|done|].
      rewrite Hlook. simpl.
      by rewrite ?Herr, ?Hstate, diff_is_services, ?Hdiff.
    + rewrite modify_service_policy_run in Hrun. cbn zeta in Hrun.
      destruct (negb (bool_decide ((modify_split _).2 = ∅))); [done|].
      destruct (bool_decide ((modify_split _).1 = ∅)); [done|].
      destruct (rest_patch _ _ _) as [r' error'] eqn:Hpatch.
      destruct (truthy_error error') eqn:Herr'; simplify_eq/=.
      destruct (patch_applies _ _ _ _ _ Hpatch Herr') as [Hpol Hver].
      split_and!; [done|done|].
      rewrite lookup_now_policies, Hpol, filter_patched, Hfound. simpl.
      rewrite ?Hstate, diff_is_services by (by rewrite patched_matches).
      simpl. apply bool_decide_eq_true_2, (patched_services record).
      * by destruct (modify_split_lookup
                       (services_diff record (parameters s0)) "services")
          as [-> _].
      * by apply bool_decide_eq_false in Hdiff.
  - (* absent, absent *)
    simplify_eq/=. split_and!; [done|done|].
    rewrite Hlook. simpl. by rewrite ?Herr, ?Hstate.
  - (* create *)
    rewrite create_service_policy_run in Hrun. cbn zeta in Hrun.
    destruct (rest_post _ _ _) as [r' error'] eqn:Hpost.
    destruct (truthy_error error') eqn:Herr'; simplify_eq/=.
    destruct (post_applies _ _ _ _ Hpost Herr')
      as [(uuid & record & Hcreated & Hpol) Hver].
    apply created_matches in Hcreated as [Hmatch Hsame].
    split_and!; [done|done|].
    rewrite lookup_now_policies, Hpol, filter_app, Hfound, filter_cons.
    rewrite decide_True by done. simpl.
    by rewrite ?Hstate, diff_is_services, ?Hsame.
Qed.

(** C2: a first run out of check mode that exits, on a backend that
    applies the create, modify or delete request it is sent, is followed,
    with the same arguments on the remote the first run left, by a run
    that reports [changed = false], no [cd_action] and an empty [modify],
    after the version gate's request and the lookup's GET alone, and that
    leaves the remote as it found it.  The diff is the one of the spec, on
    the one mutable field [services]. *)
Theorem second_run_reports_no_change {R} `{!OntapRestAPI R}
    `{!AppliesRequests R} `{!DiffEngine} `{!DiffsServices}
    (args : params) (r : R) (check2 : bool) (rep1 : report) (s1 : self R) :
  main args false r = (inr (ExitJson rep1), s1) →
  ∃ s2, main args check2 (remote s1) =
          (inr (ExitJson (Report false None (Some ∅) (with_defaults args))), s2) ∧
        remote s2 = remote s1 ∧
        calls s2 = [version_request;
                    GET "network/ip/service-policies"
                        (get_query (parameters s1))].
Proof.
  intros Hrun.
  destruct (first_run_settles _ _ _ _ Hrun) as (s0 & Hinit & Hp & Hver & Hd).
  destruct (init_new_self _ _ _ _ Hinit) as (Hm & _).
  destruct (init_param args false check2 r (remote s1) s0 Hinit (Hver _ _ _))
    as [_ Hinit2].
  rewrite main_run, Hinit2.
  rewrite apply_in_desired_state by done.
  eexists. split; [by rewrite <-Hm|]. by rewrite Hp.
Qed.
(** ** The module on concrete inputs *)

(** A hand-built diff whose only key is [service], a part of the word
    [services], is not refused: [modify_service_policy] sends it as the body
    of a PATCH to the record's path.  No computed diff holds such a key. *)
Example modify_accepts_part_of_services_key :
  @modify_service_policy _ sim_rest (Some svc1_record)
     {["service" := VList ["data_nfs"]]}
     (new_self svc1_present false [svc1_record]) =
  (inl tt,
   called (PATCH "network/ip/service-policies/u1"
                 {["service" := VList ["data_nfs"]]})
          [svc1_record] (new_self svc1_present false [svc1_record])).
Proof. vm_compute. reflexivity. Qed.

(** C3 as stated fails on the request of the version gate: the run on
    [no_service] beside another service ends in the failure of
    [validate_inputs], and by then the constructor has sent the gate's GET
    on [cluster]; and when the constructor returns with [no_service]
    replaced by the empty list, that GET has been sent too. *)
Lemma no_service_fails_after_version_request :
  (sim_main svc1_two_services false []).1 =
    inr (FailJson "Error: no other service can be present when no_service is specified.  Got: %s"
                  (FList ["no_service"; "data_nfs"])) ∧
  calls (sim_main svc1_two_services false []).2 =
    [GET "cluster" {["fields" := VList ["version"]]}] ∧
  calls (sim_main svc1_two_services false []).2 ≠ [] ∧
  (@init _ sim_rest (new_self svc1_no_service false [])).1 = inl tt ∧
  p_services (parameters
                (@init _ sim_rest (new_self svc1_no_service false [])).2) =
    Some [] ∧
  calls (@init _ sim_rest (new_self svc1_no_service false [])).2 =
    [GET "cluster" {["fields" := VList ["version"]]}].
Proof. vm_compute. done. Qed.


Lemma planner_table_witness :
  @get_service_policy _ sim_rest (new_self svc1_present false []) =
    (inl None, (@get_service_policy _ sim_rest (new_self svc1_present false [])).2) ∧
  ∃ cd_action modify s2,
    @get_actions _ sim_rest sim_diff (new_self svc1_present false []) =
      (inl (cd_action, modify, None), s2) ∧
    cd_action = Some "create" ∧ modify = None.
Proof.
  assert (@get_service_policy _ sim_rest (new_self svc1_present false []) =
          (inl None, (@get_service_policy _ sim_rest
                        (new_self svc1_present false [])).2)) as Hget
    by (vm_compute; reflexivity).
  split; [exact Hget|].
  destruct (@planner_table _ sim_rest sim_diff _ _ _ Hget)
    as (cd_action & modify & s2 & Hplan & Htable & _).
  exists cd_action, modify, s2. split; [exact Hplan|exact Htable].
Defined.

Lemma second_run_reports_no_change_witness :
  sim_main svc1_present false [] =
    (inr (ExitJson (Report true (Some "create") None svc1_present)),
     (sim_main svc1_present false []).2) ∧
  ∃ s2, sim_main svc1_present false (remote (sim_main svc1_present false []).2) =
          (inr (ExitJson (Report false None (Some ∅) (with_defaults svc1_present))), s2) ∧
        remote s2 = remote (sim_main svc1_present false []).2 ∧
        calls s2 = [version_request;
                    GET "network/ip/service-policies"
                        (get_query (parameters (sim_main svc1_present false []).2))].
Proof.
  assert (sim_main svc1_present false [] =
          (inr (ExitJson (Report true (Some "create") None svc1_present)),
           (sim_main svc1_present false []).2)) as Hrun
    by (vm_compute; reflexivity).
  split; [exact Hrun|].
  exact (@second_run_reports_no_change _ sim_rest sim_applies sim_diff sim_diffs
           svc1_present [] false _ _ Hrun).
Defined.

Lemma no_service_validation_witness :
  p_services svc1_no_service = Some ["no_service"] ∧
  "no_service" ∈ ["no_service"] ∧
  (∀ s : self (list service_policy),
     p_services (parameters s) = Some ["no_service"] →
     p_services (parameters (validate_inputs s).2) = Some []) ∧
  ∃ s0, @init _ sim_rest (new_self svc1_no_service false []) = (inl tt, s0) ∧
        p_services (parameters s0) = Some [] ∧
        calls s0 = [version_request] ∧
        sim_main svc1_no_service false [] = @apply _ sim_rest sim_diff s0.
Proof.
  assert ("no_service" ∈ ["no_service"]) as Hin
    by constructor.
  split; [reflexivity|]. split; [exact Hin|].
  destruct (proj2 (@no_service_validation _ sim_rest sim_diff svc1_no_service
                     false [] ["no_service"] eq_refl Hin) eq_refl)
    as [Hempties [Hreturns|(fmt & arg & s' & Hfails & _)]].
  - split; [exact Hempties|exact Hreturns].
  - vm_compute in Hfails. discriminate Hfails.
Defined.

Lemma modify_service_policy_computed_diff_witness :
  (∀ key, is_Some (({["services" := VList ["data_nfs"]]} : gmap string value) !! key) →
          key ∈ record_fields) ∧
  ∃ o, @modify_service_policy _ sim_rest (Some svc1_record)
         {["services" := VList ["data_nfs"]]}
         (new_self svc1_present false [svc1_record]) =
       (o, called (PATCH "network/ip/service-policies/u1"
                         {["services" := VList ["data_nfs"]]})
                  [svc1_record] (new_self svc1_present false [svc1_record])).
Proof.
  assert (∀ key, is_Some (({["services" := VList ["data_nfs"]]}
                             : gmap string value) !! key) →
                 key ∈ record_fields) as Hkeys.
  { intros key [v Hv]. apply lookup_singleton_Some in Hv as [<- _].
    vm_compute. do 3 right. left. }
  split; [exact Hkeys|].
  exact (proj2 (proj2 (@modify_service_policy_computed_diff _ sim_rest
                         svc1_record _
                         (new_self svc1_present false [svc1_record]) Hkeys))
               _ eq_refl).
Defined.


Lemma check_mode_invokes_no_mutator_witness :
  @init _ sim_rest (new_self svc1_present true []) =
    (inl tt, (@init _ sim_rest (new_self svc1_present true [])).2) ∧
  remote (sim_main svc1_present true []).2 = [] ∧
  calls (sim_main svc1_present true []).2 =
    [version_request;
     GET "network/ip/service-policies"
       {["name" := VStr "svc1";
         "fields" := VStr "name,uuid,ipspace,services,svm";
         "svm.name" := VStr "vs1"]}] ∧
  (sim_main svc1_present true []).1 =
    inr (ExitJson (Report true (Some "create") None svc1_present)).
Proof.
  assert (@init _ sim_rest (new_self svc1_present true []) =
          (inl tt, (@init _ sim_rest (new_self svc1_present true [])).2))
    as Hinit by (vm_compute; reflexivity).
  destruct (@check_mode_invokes_no_mutator _ sim_rest sim_diff svc1_present [])
    as (Hremote & _ & Hrun).
  destruct (Hrun _ Hinit) as [Hcalls Hout].
  split; [exact Hinit|]. split; [exact Hremote|]. unfold sim_main. split.
  - rewrite Hcalls. vm_compute. reflexivity.
  - rewrite Hout. vm_compute. reflexivity.
Defined.

Lemma exit_report_scope_is_module_params_witness :
  sim_main svc1_no_service false [] =
    (inr (ExitJson (Report true (Some "create") None
                           (with_defaults svc1_no_service))),
     (sim_main svc1_no_service false []).2) ∧
  rep_scope (Report true (Some "create") None (with_defaults svc1_no_service)) =
    with_defaults svc1_no_service ∧
  with_defaults svc1_no_service ≠ parameters (sim_main svc1_no_service false []).2.
Proof.
  assert (sim_main svc1_no_service false [] =
          (inr (ExitJson (Report true (Some "create") None
                                 (with_defaults svc1_no_service))),
           (sim_main svc1_no_service false []).2)) as Hrun
    by (vm_compute; reflexivity).
  split; [exact Hrun|]. split.
  - exact (proj1 (@exit_report_scope_is_module_params _ sim_rest sim_diff
                    _ _ _ _ _ Hrun)).
  - vm_compute. discriminate.
Defined.

Lemma validated_scope_in_create_body_witness :
  @init _ sim_rest (new_self svc1_no_service false []) =
    (inl tt, (@init _ sim_rest (new_self svc1_no_service false [])).2) ∧
  create_body (parameters (@init _ sim_rest (new_self svc1_no_service false [])).2)
    !! "services" = Some (VList []).
Proof.
  assert (@init _ sim_rest (new_self svc1_no_service false []) =
          (inl tt, (@init _ sim_rest (new_self svc1_no_service false [])).2))
    as Hinit by (vm_compute; reflexivity).
  split; [exact Hinit|].
  destruct (@validated_scope_in_create_body _ sim_rest _ _ _ _ Hinit)
    as (_ & _ & Hservices & _).
  exact (proj2 (Hservices eq_refl)).
Defined.

(** The scenarios of §8 on the reference remote. *)
Example scenario_create :
  (sim_main svc1_present false []).1 =
    inr (ExitJson (Report true (Some "create") None svc1_present)) ∧
  calls (sim_main svc1_present false []).2 =
    [GET "cluster" {["fields" := VList ["version"]]};
     GET "network/ip/service-policies"
       {["name" := VStr "svc1";
         "fields" := VStr "name,uuid,ipspace,services,svm";
         "svm.name" := VStr "vs1"]};
     POST "network/ip/service-policies"
       {["name" := VStr "svc1"; "svm.name" := VStr "vs1";
         "scope" := VStr "svm"; "services" := VList ["data_nfs"]]}].
Proof. vm_compute. done. Qed.

Example scenario_delete :
  (sim_main svc1_absent false [svc1_record]).1 =
    inr (ExitJson (Report true (Some "delete") None svc1_absent)) ∧
  last (calls (sim_main svc1_absent false [svc1_record]).2) =
    Some (DELETE "network/ip/service-policies/u1") ∧
  remote (sim_main svc1_absent false [svc1_record]).2 = [].
Proof. vm_compute. done. Qed.

Example scenario_no_service :
  (sim_main svc1_no_service false [svc1_record]).1 =
    inr (ExitJson (Report true None (Some {["services" := VList []]})
                          (with_defaults svc1_no_service))) ∧
  last (calls (sim_main svc1_no_service false [svc1_record]).2) =
    Some (PATCH "network/ip/service-policies/u1" {["services" := VList []]}).
Proof. vm_compute. done. Qed.

(** Two runs in a row on the reference remote: the second run finds the
    policy as the first one left it and reports no change. *)
Example scenario_create_then_rerun :
  (sim_main svc1_present false (remote (sim_main svc1_present false []).2)).1 =
    inr (ExitJson (Report false None (Some ∅) svc1_present)) ∧
  remote (sim_main svc1_present false []).2 =
    [ServicePolicy "svc1" "uuid-svc1" None ["data_nfs"] (Some "vs1")].
Proof. vm_compute. done. Qed.

Example scenario_modify_then_rerun :
  (sim_main svc1_no_service false [svc1_record]).1 =
    inr (ExitJson (Report true None (Some {["services" := VList []]})
                          (with_defaults svc1_no_service))) ∧
  remote (sim_main svc1_no_service false [svc1_record]).2 =
    [ServicePolicy "svc1" "u1" None [] (Some "vs1")] ∧
  (sim_main svc1_no_service false
            (remote (sim_main svc1_no_service false [svc1_record]).2)).1 =
    inr (ExitJson (Report false None (Some ∅) (with_defaults svc1_no_service))).
Proof. vm_compute. done. Qed.

Example scenario_delete_then_rerun :
  (sim_main svc1_absent false
            (remote (sim_main svc1_absent false [svc1_record]).2)).1 =
    inr (ExitJson (Report false None (Some ∅) svc1_absent)).
Proof. vm_compute. done. Qed.

Example scenario_cluster_with_vserver :
  sim_main (Params None "svc1" (Some "Default") (Some "cluster") None
                   (Some "vs1") [] []) false [] =
    (inr (FailJson ("Error: vserver cannot be set when " +:+ dquote +:+
                    "scope: cluster" +:+ dquote +:+ " is specified.  Got: %s")
                   (FOptStr (Some "vs1"))),
     Self (Params (Some "present") "svc1" (Some "Default") (Some "cluster")
                  None (Some "vs1") [] [])
          false
          (Params (Some "present") "svc1" (Some "Default") (Some "cluster")
                  None (Some "vs1") [] [])
          false [] [GET "cluster" {["fields" := VList ["version"]]}]).
Proof. vm_compute. reflexivity. Qed.

(** * Further properties of the module *)

(** ** The calls of a run *)

(** How a run went after the constructor returned: what the lookup found,
    and the state the run ended in. *)
Lemma main_after_init `{OntapRestAPI R} `{DiffEngine}
    (args : params) (check : bool) (r : R) :
  (∃ fmt arg s', main args check r = (inr (FailJson fmt arg), s') ∧
                 (calls s' = [] ∨ calls s' = [version_request]) ∧
                 remote s' = r) ∨
  (∃ s0, init (new_self args check r) = (inl tt, s0) ∧
         main args check r = apply s0 ∧
         module_params s0 = with_defaults args ∧ check_mode s0 = check ∧
         na_changed s0 = false ∧ remote s0 = r ∧
         calls s0 = [version_request]).
Proof.
  destruct (init (new_self args check r)) as [[[]|e] s0] eqn:Hinit.
  - right. exists s0. rewrite main_run, Hinit.
    destruct (init_new_self _ _ _ _ Hinit) as (? & ? & ? & ? & ?). done.
  - left. apply main_init_fails. intros s0'. by rewrite Hinit.
Qed.

(** X1: a run issues no call, or the version gate's request alone, or
    that request and the lookup's GET, or these two followed by exactly
    one mutating call: a POST of the create body, or a PATCH or a DELETE
    addressed to the uuid of the record the lookup found.  The query and
    the body are built from the same parameters. *)
Theorem run_issues_at_most_one_mutation `{OntapRestAPI R} `{DiffEngine}
    (args : params) (check : bool) (r : R) :
  let s' := (main args check r).2 in
  let p := parameters s' in
  let lookup := GET "network/ip/service-policies" (get_query p) in
  calls s' = [] ∨
  calls s' = [version_request] ∨
  calls s' = [version_request; lookup] ∨
  calls s' = [version_request; lookup;
              POST "network/ip/service-policies" (create_body p)] ∨
  (∃ record body,
     (lookup_now r p).1 = Some record ∧
     calls s' = [version_request; lookup;
                 PATCH ("network/ip/service-policies/" +:+ sp_uuid record) body]) ∨
  (∃ record,
     (lookup_now r p).1 = Some record ∧
     calls s' = [version_request; lookup;
                 DELETE ("network/ip/service-policies/" +:+ sp_uuid record)]).
Proof.
  cbn zeta.
  destruct (main_after_init args check r)
    as [(fmt & arg & s' & -> & Hc & _)|(s0 & _ & -> & _ & _ & Hch & Hr & Hc)];
    [simpl; destruct Hc as [->| ->]; by auto|].
  right.
  rewrite apply_run, get_actions_run. cbn zeta. rewrite Hr.
  destruct (lookup_now r (parameters s0)) as [current error] eqn:Hlook.
  destruct (truthy_error error); simpl; [right; left; by rewrite Hc|].
  destruct current as [record|],
    (bool_decide (p_state (parameters s0) = Some "absent")); simpl.
  - (* delete *)
    destruct (check_mode s0); simpl; [right; left; by rewrite Hc|].
    rewrite delete_service_policy_run. cbn zeta.
    destruct (rest_delete _ _) as [r' error'].
    do 4 right. exists record.
    destruct (truthy_error error'); simpl; rewrite Hc, Hlook; done.
  - (* present, present *)
    destruct (bool_decide (attribute_diff record (parameters s0) = ∅)); simpl;
      rewrite ?Hch; simpl; [right; left; by rewrite Hc|].
    destruct (check_mode s0); simpl; [right; left; by rewrite Hc|].
    rewrite modify_service_policy_run. cbn zeta.
    destruct (negb (bool_decide ((modify_split _).2 = ∅))); simpl;
      [right; left; by rewrite Hc|].
    destruct (bool_decide ((modify_split _).1 = ∅)); simpl;
      [right; left; by rewrite Hc|].
    destruct (rest_patch _ _ _) as [r' error'].
    do 3 right. left. exists record. eexists.
    destruct (truthy_error error'); simpl; rewrite Hc, Hlook; done.
  - (* absent, absent *)
    rewrite Hch. simpl. right; left; by rewrite Hc.
  - (* create *)
    destruct (check_mode s0); simpl; [right; left; by rewrite Hc|].
    rewrite create_service_policy_run. cbn zeta.
    destruct (rest_post _ _ _) as [r' error'].
    do 2 right. left.
    destruct (truthy_error error'); simpl; rewrite Hc; done.
Qed.

(** X2: a run ends in [exit_json] only if every call it issued came back
    without an error: the lookup, and the one mutating call if there is
    one; the remote it leaves is the one that call returned. *)
Theorem exit_only_after_successful_calls `{OntapRestAPI R} `{DiffEngine}
    (args : params) (check : bool) (r : R) (rep : report) (s' : self R) :
  main args check r = (inr (ExitJson rep), s') →
  truthy_error (lookup_now r (parameters s')).2 = false ∧
  match last (calls s') with
  | Some (GET api query) => remote s' = r
  | Some (POST api body) =>
      truthy_error (rest_post r api body).2 = false ∧
      remote s' = (rest_post r api body).1
  | Some (PATCH api body) =>
      truthy_error (rest_patch r api body).2 = false ∧
      remote s' = (rest_patch r api body).1
  | Some (DELETE api) =>
      truthy_error (rest_delete r api).2 = false ∧
      remote s' = (rest_delete r api).1
  | None => False
  end.
Proof.
  destruct (main_after_init args check r)
    as [(fmt & arg & s1 & -> & _)|(s0 & _ & -> & _ & _ & Hch & Hr & Hc)];
    [done|].
  rewrite apply_run, get_actions_run. cbn zeta. rewrite Hr.
  destruct (lookup_now r (parameters s0)) as [current error] eqn:Hlook.
  destruct (truthy_error error) eqn:Herr; simpl; [done|].
  destruct current as [record|],
    (bool_decide (p_state (parameters s0) = Some "absent")); simpl.
  - destruct (check_mode s0); simpl.
    { intros ?; simplify_eq/=. rewrite Hlook, Hc. done. }
    rewrite delete_service_policy_run. cbn zeta. simpl.
    destruct (rest_delete r _) as [r' error'] eqn:Hcall.
    destruct (truthy_error error') eqn:Herr'; intros ?; simplify_eq/=.
    rewrite Hlook, Hc. simpl. by rewrite Hcall.
  - destruct (bool_decide (attribute_diff record (parameters s0) = ∅)); simpl;
      rewrite ?Hch; simpl.
    { intros ?; simplify_eq/=. rewrite Hlook, Hc. done. }
    destruct (check_mode s0); simpl.
    { intros ?; simplify_eq/=. rewrite Hlook, Hc. done. }
    rewrite modify_service_policy_run. cbn zeta. simpl.
    destruct (negb (bool_decide ((modify_split _).2 = ∅))); simpl; [done|].
    destruct (bool_decide ((modify_split _).1 = ∅)); simpl; [done|].
    destruct (rest_patch r _ _) as [r' error'] eqn:Hcall.
    destruct (truthy_error error') eqn:Herr'; intros ?; simplify_eq/=.
    rewrite Hlook, Hc. simpl. by rewrite Hcall.
  - rewrite Hch. simpl. intros ?; simplify_eq/=. rewrite Hlook, Hc. done.
  - destruct (check_mode s0); simpl.
    { intros ?; simplify_eq/=. rewrite Hlook, Hc. done. }
    rewrite create_service_policy_run. cbn zeta. simpl.
    destruct (rest_post r _ _) as [r' error'] eqn:Hcall.
    destruct (truthy_error error') eqn:Herr'; intros ?; simplify_eq/=.
    rewrite Hlook, Hc. simpl. by rewrite Hcall.
Qed.

(** X3: out of check mode, a run that exits reports [changed] exactly when
    it issued a mutating call after the version gate's request and the
    lookup; when it reports no change, these two are its only calls and
    the remote is untouched. *)
Theorem changed_iff_mutating_call `{OntapRestAPI R} `{DiffEngine}
    (args : params) (r : R) (rep : report) (s' : self R) :
  main args false r = (inr (ExitJson rep), s') →
  (rep_changed rep = true ↔ length (calls s') = 3) ∧
  (rep_changed rep = false ↔
   calls s' = [version_request;
               GET "network/ip/service-policies" (get_query (parameters s'))]) ∧
  (rep_changed rep = false → remote s' = r).
Proof.
  destruct (main_after_init args false r)
    as [(fmt & arg & s1 & -> & _)|(s0 & _ & -> & _ & Hcheck & Hch & Hr & Hc)];
    [done|].
  rewrite apply_run, get_actions_run. cbn zeta. rewrite Hr.
  destruct (lookup_now r (parameters s0)) as [current error] eqn:Hlook.
  destruct (truthy_error error) eqn:Herr; simpl; [done|].
  destruct current as [record|],
    (bool_decide (p_state (parameters s0) = Some "absent")); simpl;
    rewrite ?Hcheck; simpl.
  - rewrite delete_service_policy_run. cbn zeta. simpl.
    destruct (rest_delete r _) as [r' error'].
    destruct (truthy_error error'); intros ?; simplify_eq/=.
    rewrite Hc. simpl. split_and!; done.
  - destruct (bool_decide (attribute_diff record (parameters s0) = ∅)); simpl;
      rewrite ?Hch, ?Hcheck; simpl.
    { intros ?; simplify_eq/=. rewrite Hc, Hch. simpl. split_and!; done. }
    rewrite modify_service_policy_run. cbn zeta. simpl.
    destruct (negb (bool_decide ((modify_split _).2 = ∅))); simpl; [done|].
    destruct (bool_decide ((modify_split _).1 = ∅)); simpl; [done|].
    destruct (rest_patch r _ _) as [r' error'].
    destruct (truthy_error error'); intros ?; simplify_eq/=.
    rewrite Hc. simpl. split_and!; done.
  - rewrite Hch. simpl. intros ?; simplify_eq/=. rewrite Hc, Hch. simpl.
    split_and!; done.
  - rewrite create_service_policy_run. cbn zeta. simpl.
    destruct (rest_post r _ _) as [r' error'].
    destruct (truthy_error error'); intros ?; simplify_eq/=.
    rewrite Hc. simpl. split_and!; done.
Qed.

(** X4: the report of a run out of check mode that exits is the report
    the same run gives in check mode, on the same remote: [changed],
    [cd_action], [modify] and [scope] do not depend on the mode. *)
Theorem check_mode_predicts_report `{OntapRestAPI R} `{DiffEngine}
    (args : params) (r : R) (rep : report) (s1 : self R) :
  main args false r = (inr (ExitJson rep), s1) →
  (main args true r).1 = inr (ExitJson rep).
Proof.
  rewrite !main_run.
  destruct (init (new_self args false r)) as [[[]|e] s0] eqn:Hinit.
  2:{ intros ?; simplify_eq. by destruct (init_exit _ _ _ Hinit) as (? & ? & ?). }
  destruct (init_param args false true r r s0 Hinit eq_refl) as [Hs0 ->].
  rewrite !apply_run, !get_actions_run. cbn zeta. simpl.
  rewrite Hs0. simpl.
  destruct (lookup_now r (parameters s0)) as [current error].
  destruct (truthy_error error); simpl; [done|].
  destruct current as [record|],
    (bool_decide (p_state (parameters s0) = Some "absent")); simpl.
  - rewrite delete_service_policy_run. cbn zeta. simpl.
    destruct (rest_delete r _) as [r' error'].
    destruct (truthy_error error'); intros ?; by simplify_eq/=.
  - destruct (bool_decide (attribute_diff record (parameters s0) = ∅)); simpl.
    { intros ?; by simplify_eq/=. }
    rewrite modify_service_policy_run. cbn zeta. simpl.
    destruct (negb (bool_decide ((modify_split _).2 = ∅))); simpl; [done|].
    destruct (bool_decide ((modify_split _).1 = ∅)); simpl; [done|].
    destruct (rest_patch r _ _) as [r' error'].
    destruct (truthy_error error'); intros ?; by simplify_eq/=.
  - intros ?; by simplify_eq/=.
  - rewrite create_service_policy_run. cbn zeta. simpl.
    destruct (rest_post r _ _) as [r' error'].
    destruct (truthy_error error'); intros ?; by simplify_eq/=.
Qed.

(** ** Validation *)

(** X5: [validate_inputs] is idempotent: on the object it returned, it
    returns again and changes nothing. *)
Theorem validate_inputs_idempotent {R} (s s' : self R) :
  validate_inputs s = (inl tt, s') → validate_inputs s' = (inl tt, s').
Proof.
  intros Hrun.
  apply validate_inputs_ok in Hrun
    as (_ & _ & _ & Hvs & _ & Hserv & Hscope & Hcl & Hsvm).
  unfold validate_inputs. method. rewrite Hserv.
  destruct (p_scope (parameters s')) as [sc|] eqn:Hsc; [|done].
  assert ((bool_decide (sc = "cluster") &&
           negb (bool_decide (p_vserver (parameters s') = None))) = false) as Hc.
  { destruct (decide (sc = "cluster")) as [->|Hne];
      [|by rewrite (bool_decide_eq_false_2 (sc = "cluster"))].
    rewrite Hvs, (Hcl eq_refl).
    by rewrite (bool_decide_eq_true_2 (None = None)), andb_false_r. }
  assert ((bool_decide (sc = "svm") &&
           bool_decide (p_vserver (parameters s') = None)) = false) as Hv.
  { destruct (decide (sc = "svm")) as [->|Hne];
      [|by rewrite (bool_decide_eq_false_2 (sc = "svm"))].
    rewrite Hvs. destruct (Hsvm eq_refl) as [v ->].
    by rewrite (bool_decide_eq_false_2 (Some v = None)), andb_false_r. }
  destruct (p_services (parameters s)) as [[|x l]|]; simpl;
    try destruct (list_in "no_service" (x :: l)) eqn:Hin; simpl;
    rewrite ?Hin; simpl; rewrite ?Hsc; simpl; rewrite ?Hc, ?Hv; done.
Qed.

(** X6: when [validate_inputs] returns, a services list that held
    [no_service] was that value alone, with no repetition, and is now the
    empty list; any other list, the empty one included, and an unset
    services are left as they were. *)
Theorem validate_inputs_services {R} (s s' : self R) :
  validate_inputs s = (inl tt, s') →
  match p_services (parameters s) with
  | Some l =>
      if bool_decide ("no_service" ∈ l)
      then l = ["no_service"] ∧ p_services (parameters s') = Some []
      else p_services (parameters s') = Some l
  | None => p_services (parameters s') = None
  end.
Proof.
  intros Hrun.
  pose proof (validate_inputs_ok _ _ Hrun)
    as (_ & _ & _ & _ & _ & Hserv & _).
  destruct (p_services (parameters s)) as [l|] eqn:Hl; [|done].
  case_bool_decide as Hin.
  - destruct l as [|x [|y l]].
    + by inversion Hin.
    + apply list_elem_of_singleton in Hin as <-. split; [done|].
      by rewrite Hserv.
    + rewrite (validate_inputs_no_service s (x :: y :: l)) in Hrun;
        [done|done|done|simpl; lia].
  - rewrite Hserv. destruct l as [|x l]; [done|]. simpl. unfold list_in.
    by rewrite bool_decide_eq_false_2.
Qed.

(** ** The test [key in ('services')] *)

Lemma string_app_cons (a : Ascii.ascii) (s t : string) :
  String a s +:+ t = String a (s +:+ t).
Proof. reflexivity. Qed.

Lemma string_prefix_app (sub s : string) :
  String.prefix sub s = true ↔ ∃ post, s = sub +:+ post.
Proof.
  revert s. induction sub as [|a sub IH]; intros s.
  - split; [by exists s|by destruct s].
  - destruct s as [|b s]; simpl; [split; [done|by intros [post ?]]|].
    destruct (Ascii.ascii_dec a b) as [->|Hne].
    + rewrite IH. split; intros [post Hpost]; exists post;
        rewrite string_app_cons in *; congruence.
    + split; [done|]. intros [post Hpost].
      rewrite string_app_cons in Hpost. congruence.
Qed.

Lemma str_in_unfold (sub s : string) :
  str_in sub s =
    String.prefix sub s ||
    match s with
    | EmptyString => false
    | String _ s' => str_in sub s'
    end.
Proof. by destruct s. Qed.

(** [str_in] is the occurrence of one string inside another. *)
Lemma str_in_occurs (sub s : string) :
  str_in sub s = true ↔ ∃ pre post, s = pre +:+ sub +:+ post.
Proof.
  induction s as [|a s IH]; rewrite str_in_unfold, orb_true_iff,
    string_prefix_app.
  - split.
    + intros [[post ->]|?]; [|done]. by exists EmptyString, post.
    + intros ([|b pre] & post & Hs); [left; by exists post|done].
  - rewrite IH. split.
    + intros [[post ->]|(pre & post & ->)].
      * by exists EmptyString, post.
      * by exists (String a pre), post.
    + intros ([|b pre] & post & Hs); [left; by exists post|].
      right. rewrite string_app_cons in Hs. injection Hs as -> ->.
      by exists pre, post.
Qed.

(** X7: [modify_service_policy] either stops in [fail_json] with the
    object untouched and no call issued, or issues one PATCH to the
    record's path whose body is the whole diff; in that case the diff is
    not empty and each of its keys occurs inside the word [services].
    The empty diff is refused as nothing to change. *)
Theorem modify_service_policy_patch `{OntapRestAPI R}
    (record : service_policy) (modify : gmap string value)
    (s s' : self R) (o : unit + exit) :
  modify_service_policy (Some record) modify s = (o, s') →
  (modify = ∅ →
   o = inr (FailJson "Error: nothing to change - modify called with: %s"
                     (FDict ∅)) ∧ s' = s) ∧
  ((s' = s ∧ ∃ fmt arg, o = inr (FailJson fmt arg)) ∨
   (s' = called (PATCH ("network/ip/service-policies/" +:+ sp_uuid record) modify)
                (rest_patch (remote s)
                   ("network/ip/service-policies/" +:+ sp_uuid record) modify).1 s ∧
    modify ≠ ∅ ∧
    ∀ key, is_Some (modify !! key) →
           ∃ pre post, "services" = pre +:+ key +:+ post)).
Proof.
  rewrite modify_service_policy_run. cbn zeta.
  destruct (bool_decide ((modify_split modify).2 = ∅)) eqn:Hcopy; simpl.
  2:{ intros [= <- <-]. split; [|left; eauto].
      intros ->. apply bool_decide_eq_false_1 in Hcopy. destruct Hcopy.
      apply map_empty. intros key.
      destruct (modify_split_lookup ∅ key) as [_ ->].
      by destruct (str_in key "services"). }
  apply bool_decide_eq_true_1 in Hcopy.
  assert (∀ key, is_Some (modify !! key) → str_in key "services" = true)
    as Hkeys.
  { intros key Hsome. destruct (modify_split_lookup modify key) as [_ Hk].
    rewrite Hcopy, lookup_empty in Hk.
    destruct (str_in key "services"); [done|].
    rewrite <-Hk in Hsome. by destruct Hsome. }
  assert ((modify_split modify).1 = modify) as ->.
  { apply map_eq. intros key.
    destruct (modify_split_lookup modify key) as [-> _].
    destruct (str_in key "services") eqn:Hin; [done|].
    destruct (modify !! key) eqn:Hk; [|done].
    rewrite Hkeys in Hin by eauto. done. }
  case_bool_decide as Hempty; simpl.
  - intros [= <- <-]. split; [by intros _; rewrite Hempty|left; eauto].
  - destruct (rest_patch _ _ _) as [r' error']. intros [= <- <-].
    split; [done|]. right. split_and!; [done|done|].
    intros key Hsome. apply str_in_occurs. by apply Hkeys.
Qed.

(** The diff on [services] alone goes to the body whole. *)
Lemma modify_split_services (v : value) :
  modify_split {["services" := v]} = ({["services" := v]}, ∅).
Proof.
  destruct (modify_split {["services" := v]}) as [body modify_copy] eqn:Hsplit.
  f_equal.
  - apply map_eq. intros key.
    destruct (modify_split_lookup {["services" := v]} key) as [Hb _].
    rewrite Hsplit in Hb. simpl in Hb. rewrite Hb.
    destruct (str_in key "services") eqn:Hin; [done|].
    destruct (decide (key = "services")) as [->|Hne]; [done|].
    by rewrite lookup_singleton_ne.
  - apply map_empty. intros key.
    destruct (modify_split_lookup {["services" := v]} key) as [_ Hc].
    rewrite Hsplit in Hc. simpl in Hc. rewrite Hc.
    destruct (str_in key "services") eqn:Hin; [done|].
    destruct (decide (key = "services")) as [->|Hne]; [done|].
    by rewrite lookup_singleton_ne.
Qed.

(** X8: an error returned by the REST client ends the method in
    [fail_json] with the message of that operation and the error as its
    argument; the call stays recorded and the remote is the one the call
    returned, with nothing undone. *)
Theorem rest_errors_end_the_run `{OntapRestAPI R}
    (record : service_policy) (modify : gmap string value) (s : self R) :
  (truthy_error (lookup_now (remote s) (parameters s)).2 = true →
   get_service_policy s =
     (inr (FailJson "Error in get_service_policy: %s"
                    (FOptStr (lookup_now (remote s) (parameters s)).2)),
      called (GET "network/ip/service-policies" (get_query (parameters s)))
             (remote s) s)) ∧
  (∀ r' error,
     rest_post (remote s) "network/ip/service-policies"
               (create_body (parameters s)) = (r', error) →
     truthy_error error = true →
     create_service_policy s =
       (inr (FailJson "Error in create_service_policy: %s" (FOptStr error)),
        called (POST "network/ip/service-policies" (create_body (parameters s)))
               r' s)) ∧
  (∀ r' error,
     rest_delete (remote s)
       ("network/ip/service-policies/" +:+ sp_uuid record) = (r', error) →
     truthy_error error = true →
     delete_service_policy (Some record) s =
       (inr (FailJson "Error in delete_service_policy: %s" (FOptStr error)),
        called (DELETE ("network/ip/service-policies/" +:+ sp_uuid record))
               r' s)) ∧
  (∀ v r' error,
     modify = {["services" := v]} →
     rest_patch (remote s)
       ("network/ip/service-policies/" +:+ sp_uuid record) modify = (r', error) →
     truthy_error error = true →
     modify_service_policy (Some record) modify s =
       (inr (FailJson "Error in modify_service_policy: %s" (FOptStr error)),
        called (PATCH ("network/ip/service-policies/" +:+ sp_uuid record) modify)
               r' s)).
Proof.
  split_and!.
  - intros Herr. rewrite get_service_policy_run.
    destruct (lookup_now _ _) as [current error]. simpl in *. by rewrite Herr.
  - intros r' error Hcall Herr. rewrite create_service_policy_run. cbn zeta.
    unfold api_service_policies. by rewrite Hcall, Herr.
  - intros r' error Hcall Herr. rewrite delete_service_policy_run. cbn zeta.
    by rewrite Hcall, Herr.
  - intros v r' error -> Hcall Herr.
    rewrite modify_service_policy_run. cbn zeta.
    rewrite modify_split_services. cbn [fst snd].
    rewrite (bool_decide_eq_true_2 (∅ = ∅)) by done. simpl.
    rewrite bool_decide_eq_false_2 by apply insert_non_empty.
    by rewrite Hcall, Herr.
Qed.

(** ** Lookup and create on the same parameters *)

(** X9: after the constructor returned, the lookup's filter and the
    create body describe the same policy: same name, same svm name, same
    ipspace, and the filter has [scope=cluster] exactly when the body's
    scope is [cluster], an [svm.name] exactly when the body's scope is
    [svm]. *)
Theorem lookup_filter_matches_create_body `{OntapRestAPI R}
    (args : params) (check : bool) (r : R) (s0 : self R) :
  init (new_self args check r) = (inl tt, s0) →
  let p := parameters s0 in
  get_query p !! "name" = create_body p !! "name" ∧
  get_query p !! "svm.name" = create_body p !! "svm.name" ∧
  get_query p !! "ipspace.name" = create_body p !! "ipspace" ∧
  (get_query p !! "scope" = Some (VStr "cluster") ↔
   create_body p !! "scope" = Some (VStr "cluster")) ∧
  (is_Some (get_query p !! "svm.name") ↔
   create_body p !! "scope" = Some (VStr "svm")).
Proof.
  intros Hinit. cbn zeta.
  destruct (init_parameters _ _ _ _ Hinit)
    as (_ & _ & _ & _ & _ & _ & _ & Hscope & Hcl & Hsvm).
  destruct (get_query_lookup (parameters s0)) as (-> & _ & -> & -> & ->).
  destruct (create_body_lookup (parameters s0)) as (-> & -> & -> & -> & _).
  split; [done|]. split; [done|]. split; [done|].
  destruct Hscope as [Hs|Hs]; rewrite Hs in *; simpl.
  - destruct (Hcl eq_refl) as [-> _]. simpl.
    split; split; try done; by intros [? ?].
  - destruct (Hsvm eq_refl) as [v ->]. simpl.
    split; split; try done; by eauto.
Qed.

(** ** The constructor's refusals *)

(** X10: a task that gives neither the [ipspace] key nor the [vserver]
    key is refused by the framework's [required_one_of] rule: the run ends
    in [fail_json] with no call issued, the version gate's request
    included. *)
Theorem ipspace_or_vserver_required `{OntapRestAPI R} `{DiffEngine}
    (args : params) (check : bool) (r : R) :
  param_given args "ipspace" = false → param_given args "vserver" = false →
  ∃ fmt arg s', main args check r = (inr (FailJson fmt arg), s') ∧
                calls s' = [] ∧ remote s' = r.
Proof.
  intros Hip Hvs. apply main_framework_refuses.
  unfold check_required_one_of, required_one_of. simpl.
  by rewrite Hip, Hvs, andb_false_r.
Qed.

(** X11: a services list with a value outside the sixteen declared
    choices is refused by the constructor: the run ends in [fail_json]
    with no call issued. *)
Theorem undeclared_service_refused `{OntapRestAPI R} `{DiffEngine}
    (args : params) (check : bool) (r : R) (l : list string) (x : string) :
  p_services args = Some l → x ∈ l → x ∉ services_choices →
  ∃ fmt arg s', main args check r = (inr (FailJson fmt arg), s') ∧
                calls s' = [] ∧ remote s' = r.
Proof.
  intros Hl Hx Hnot. apply main_framework_refuses.
  destruct (check_choices args) eqn:Hchoices; [exfalso|done].
  unfold check_choices in Hchoices. rewrite Hl in Hchoices. simpl in Hchoices.
  apply andb_prop in Hchoices as [_ Hserv].
  rewrite forallb_forall in Hserv.
  specialize (Hserv x). rewrite <-list_elem_of_In in Hserv.
  specialize (Hserv Hx). unfold list_in in Hserv.
  by apply bool_decide_eq_true_1 in Hserv.
Qed.

(** ** The default of [state] *)

Lemma with_defaults_idem (args : params) :
  with_defaults (with_defaults args) = with_defaults args.
Proof. unfold with_defaults. simpl. done. Qed.

Lemma checks_with_defaults (args : params) :
  check_choices (with_defaults args) = check_choices args ∧
  check_required_one_of (with_defaults args) = check_required_one_of args ∧
  check_required_if (with_defaults args) = check_required_if args.
Proof.
  unfold check_choices, check_required_one_of, check_required_if,
    with_defaults, list_in.
  split_and!; [|done|done]. simpl.
  by destruct (p_state args) as [st|].
Qed.

(** X14: a task that leaves [state] out runs as the task with
    [state: present]: with the declared default filled in beforehand the
    run ends the same way, issues the same calls and leaves the same
    remote. *)
Theorem state_defaults_to_present `{OntapRestAPI R} `{DiffEngine}
    (args : params) (check : bool) (r : R) :
  (p_state args = None → p_state (with_defaults args) = Some "present") ∧
  (main (with_defaults args) check r).1 = (main args check r).1 ∧
  calls (main (with_defaults args) check r).2 = calls (main args check r).2 ∧
  remote (main (with_defaults args) check r).2 = remote (main args check r).2.
Proof.
  split; [by unfold with_defaults; intros ->|].
  rewrite !main_run, !init_run. cbn zeta. unfold new_self.
  cbn [module_params check_mode na_changed remote calls].
  destruct (checks_with_defaults args) as (-> & -> & ->).
  rewrite with_defaults_idem.
  destruct (check_choices args); cbn [negb]; [|done].
  destruct (check_required_one_of args); cbn [negb]; [|done].
  destruct (check_required_if args); cbn [negb]; [|done].
  destruct (rest_minimum_version_error _ _ _ _); [done|].
  by destruct (validate_inputs _) as [[[]|e] s0].
Qed.

(** ** The further properties on concrete inputs *)

Lemma exit_only_after_successful_calls_witness :
  sim_main svc1_present false [] =
    (inr (ExitJson (Report true (Some "create") None svc1_present)),
     (sim_main svc1_present false []).2) ∧
  truthy_error
    (@lookup_now _ sim_rest [] (parameters (sim_main svc1_present false []).2)).2 =
    false.
Proof.
  assert (sim_main svc1_present false [] =
          (inr (ExitJson (Report true (Some "create") None svc1_present)),
           (sim_main svc1_present false []).2)) as Hrun
    by (vm_compute; reflexivity).
  split; [exact Hrun|].
  exact (proj1 (@exit_only_after_successful_calls _ sim_rest sim_diff
                  _ _ _ _ _ Hrun)).
Defined.

Lemma changed_iff_mutating_call_witness :
  sim_main svc1_present false [] =
    (inr (ExitJson (Report true (Some "create") None svc1_present)),
     (sim_main svc1_present false []).2) ∧
  length (calls (sim_main svc1_present false []).2) = 3.
Proof.
  assert (sim_main svc1_present false [] =
          (inr (ExitJson (Report true (Some "create") None svc1_present)),
           (sim_main svc1_present false []).2)) as Hrun
    by (vm_compute; reflexivity).
  split; [exact Hrun|].
  exact (proj1 (proj1 (@changed_iff_mutating_call _ sim_rest sim_diff
                         _ _ _ _ Hrun)) eq_refl).
Defined.

Lemma check_mode_predicts_report_witness :
  sim_main svc1_present false [] =
    (inr (ExitJson (Report true (Some "create") None svc1_present)),
     (sim_main svc1_present false []).2) ∧
  (sim_main svc1_present true []).1 =
    inr (ExitJson (Report true (Some "create") None svc1_present)).
Proof.
  assert (sim_main svc1_present false [] =
          (inr (ExitJson (Report true (Some "create") None svc1_present)),
           (sim_main svc1_present false []).2)) as Hrun
    by (vm_compute; reflexivity).
  split; [exact Hrun|].
  exact (@check_mode_predicts_report _ sim_rest sim_diff _ _ _ _ Hrun).
Defined.

Lemma validate_inputs_idempotent_witness :
  validate_inputs (new_self svc1_no_service false ([] : list service_policy)) =
    (inl tt,
     (validate_inputs
        (new_self svc1_no_service false ([] : list service_policy))).2) ∧
  validate_inputs
    (validate_inputs
       (new_self svc1_no_service false ([] : list service_policy))).2 =
    (inl tt,
     (validate_inputs
        (new_self svc1_no_service false ([] : list service_policy))).2).
Proof.
  assert (validate_inputs
            (new_self svc1_no_service false ([] : list service_policy)) =
          (inl tt,
           (validate_inputs
              (new_self svc1_no_service false ([] : list service_policy))).2))
    as Hrun by (vm_compute; reflexivity).
  split; [exact Hrun|].
  exact (validate_inputs_idempotent _ _ Hrun).
Defined.

Lemma validate_inputs_services_witness :
  validate_inputs (new_self svc1_no_service false ([] : list service_policy)) =
    (inl tt,
     (validate_inputs
        (new_self svc1_no_service false ([] : list service_policy))).2) ∧
  p_services
    (parameters
       (validate_inputs
          (new_self svc1_no_service false ([] : list service_policy))).2) =
    Some [].
Proof.
  assert (validate_inputs
            (new_self svc1_no_service false ([] : list service_policy)) =
          (inl tt,
           (validate_inputs
              (new_self svc1_no_service false ([] : list service_policy))).2))
    as Hrun by (vm_compute; reflexivity).
  split; [exact Hrun|].
  pose proof (validate_inputs_services _ _ Hrun) as Hserv.
  exact (proj2 Hserv).
Defined.

Lemma modify_service_policy_patch_witness :
  @modify_service_policy _ sim_rest (Some svc1_record)
     {["services" := VList []]} (new_self svc1_no_service false [svc1_record]) =
    (inl tt,
     (@modify_service_policy _ sim_rest (Some svc1_record)
        {["services" := VList []]}
        (new_self svc1_no_service false [svc1_record])).2) ∧
  ∀ key, is_Some (({["services" := VList []]} : gmap string value) !! key) →
         ∃ pre post, "services" = pre +:+ key +:+ post.
Proof.
  assert (@modify_service_policy _ sim_rest (Some svc1_record)
            {["services" := VList []]}
            (new_self svc1_no_service false [svc1_record]) =
          (inl tt,
           (@modify_service_policy _ sim_rest (Some svc1_record)
              {["services" := VList []]}
              (new_self svc1_no_service false [svc1_record])).2)) as Hrun
    by (vm_compute; reflexivity).
  split; [exact Hrun|].
  destruct (proj2 (@modify_service_policy_patch _ sim_rest _ _ _ _ _ Hrun))
    as [[_ (fmt & arg & Ho)]|(_ & _ & Hkeys)]; [discriminate Ho|exact Hkeys].
Defined.

Lemma rest_errors_end_the_run_witness :
  @create_service_policy _ sim_rest_down (new_self svc1_present false []) =
    (inr (FailJson "Error in create_service_policy: %s"
                   (FOptStr (Some "connection refused"))),
     called (POST "network/ip/service-policies" (create_body svc1_present))
            [] (new_self svc1_present false [])).
Proof.
  destruct (@rest_errors_end_the_run _ sim_rest_down svc1_record ∅
              (new_self svc1_present false [])) as (_ & Hcreate & _).
  exact (Hcreate [] (Some "connection refused") eq_refl eq_refl).
Defined.

Lemma lookup_filter_matches_create_body_witness :
  @init _ sim_rest (new_self svc1_present false []) =
    (inl tt, (@init _ sim_rest (new_self svc1_present false [])).2) ∧
  get_query (parameters (@init _ sim_rest (new_self svc1_present false [])).2)
    !! "svm.name" =
  create_body (parameters (@init _ sim_rest (new_self svc1_present false [])).2)
    !! "svm.name".
Proof.
  assert (@init _ sim_rest (new_self svc1_present false []) =
          (inl tt, (@init _ sim_rest (new_self svc1_present false [])).2))
    as Hinit by (vm_compute; reflexivity).
  split; [exact Hinit|].
  destruct (@lookup_filter_matches_create_body _ sim_rest _ _ _ _ Hinit)
    as (_ & Hsvm & _).
  exact Hsvm.
Defined.

Lemma ipspace_or_vserver_required_witness :
  param_given (Params None "svc1" None None None None [] []) "ipspace" = false ∧
  param_given (Params None "svc1" None None None None [] []) "vserver" = false ∧
  ∃ fmt arg s',
    sim_main (Params None "svc1" None None None None [] []) false [] =
      (inr (FailJson fmt arg), s') ∧
    calls s' = [] ∧ remote s' = [].
Proof.
  split; [vm_compute; reflexivity|]. split; [vm_compute; reflexivity|].
  apply (@ipspace_or_vserver_required _ sim_rest sim_diff
           (Params None "svc1" None None None None [] []) false []);
    vm_compute; reflexivity.
Defined.

Lemma undeclared_service_refused_witness :
  ∃ fmt arg s',
    sim_main (Params None "svc1" None None (Some ["data_nvme"]) (Some "vs1")
                     [] [])
             false [] =
      (inr (FailJson fmt arg), s') ∧
    calls s' = [] ∧ remote s' = [].
Proof.
  apply (@undeclared_service_refused _ sim_rest sim_diff
           (Params None "svc1" None None (Some ["data_nvme"]) (Some "vs1")
                   [] [])
           false [] ["data_nvme"] "data_nvme" eq_refl).
  - constructor.
  - apply (bool_decide_unpack _). vm_compute. exact I.
Defined.
